(** * The WebSocket opening handshake of [websockets.legacy.handshake]

    A shallow embedding of [src/websockets/legacy/handshake.py]:
    [build_request], [check_request], [build_response], [check_response].

    The four functions receive one mutable [Headers] object, read it with
    [get_all] and [__getitem__], write it with [__setitem__], and either
    return or raise.  They are embedded as computations of a state and
    exception monad whose state holds that object (and the operating
    system's random source that [generate_key] draws from).

    The Python standard library pieces they call ([str.lower], [str.join],
    [str.encode], [base64], [hashlib.sha1]) are embedded in [Module Py]. *)

From Stdlib Require Import ZArith List String Ascii Bool Lia.
From Stdlib Require Import Init.Byte Strings.Byte.
Import ListNotations.

Local Open Scope string_scope.
Local Open Scope list_scope.
Local Open Scope Z_scope.

(* ===================================================================== *)
(** ** Python values: [bytes], [str] *)
(* ===================================================================== *)

Module Py.

(** A [bytes] object is a list of octets. *)
Definition bytes := list byte.

(** A [str] is a [string]; its characters stand for the code points
    U+0000 .. U+00FF. *)
Definition str := string.

Definition Z_of_byte (b : byte) : Z := Z.of_N (Byte.to_N b).

Definition byte_of_Z (z : Z) : byte :=
  match Byte.of_N (Z.to_N (z mod 256)) with
  | Some b => b
  | None => x00
  end.

Definition ord (c : ascii) : Z := Z.of_N (N_of_ascii c).
Definition chr (z : Z) : ascii := ascii_of_N (Z.to_N (z mod 256)).

(** [str.lower()] on the code points below U+0100: the upper-case letters
    are A-Z, and in the Latin-1 supplement U+00C0 .. U+00DE except the
    multiplication sign U+00D7; each maps 32 code points up. *)
Definition lower_char (c : ascii) : ascii :=
  let n := ord c in
  if ((65 <=? n) && (n <=? 90))
     || ((192 <=? n) && (n <=? 222) && negb (n =? 215))
  then chr (n + 32) else c.

Fixpoint lower (s : str) : str :=
  match s with
  | EmptyString => EmptyString
  | String c s' => String (lower_char c) (lower s')
  end.

(** [sep.join(items)]. *)
Fixpoint join (sep : str) (items : list str) : str :=
  match items with
  | [] => ""
  | [x] => x
  | x :: rest => (x ++ sep ++ join sep rest)%string
  end.

(** [str.encode()]: UTF-8.  A code point below U+0080 is one octet, one
    from U+0080 to U+00FF is two. *)
Definition encode_char (c : ascii) : bytes :=
  let n := ord c in
  if n <? 128 then [byte_of_Z n]
  else [byte_of_Z (Z.lor 192 (Z.shiftr n 6)); byte_of_Z (Z.lor 128 (Z.land n 63))].

Fixpoint encode (s : str) : bytes :=
  match s with
  | EmptyString => []
  | String c s' => encode_char c ++ encode s'
  end.

(** [bytes.decode()] of ASCII octets, which is all that it is applied to
    here (the output of [base64.b64encode]). *)
Fixpoint decode (b : bytes) : str :=
  match b with
  | [] => EmptyString
  | x :: b' => String (ascii_of_byte x) (decode b')
  end.

(* --------------------------------------------------------------------- *)
(** *** [base64] (RFC 4648, standard alphabet) *)
(* --------------------------------------------------------------------- *)

Definition b64_alphabet : str :=
  "ABCDEFGHIJKLMNOPQRSTUVWXYZabcdefghijklmnopqrstuvwxyz0123456789+/".

Definition b64_pad : byte := "=".

(** The character of a six-bit group. *)
Definition b64_char (i : Z) : byte :=
  match String.get (Z.to_nat i) b64_alphabet with
  | Some c => byte_of_ascii c
  | None => b64_pad
  end.

(** The six-bit group of a character, [None] outside the alphabet. *)
Definition b64_index (c : byte) : option Z :=
  let n := Z_of_byte c in
  if (65 <=? n) && (n <=? 90) then Some (n - 65)
  else if (97 <=? n) && (n <=? 122) then Some (n - 71)
  else if (48 <=? n) && (n <=? 57) then Some (n + 4)
  else if n =? 43 then Some 62
  else if n =? 47 then Some 63
  else None.

(** [base64.b64encode(s)]: three octets make four characters; one or two
    left-over octets make two or three characters and are padded with
    ['=']. *)
Fixpoint b64encode (s : bytes) : bytes :=
  match s with
  | [] => []
  | [a] =>
      let a := Z_of_byte a in
      [b64_char (Z.shiftr a 2); b64_char (Z.shiftl (Z.land a 3) 4);
       b64_pad; b64_pad]
  | [a; b] =>
      let a := Z_of_byte a in
      let b := Z_of_byte b in
      [b64_char (Z.shiftr a 2);
       b64_char (Z.lor (Z.shiftl (Z.land a 3) 4) (Z.shiftr b 4));
       b64_char (Z.shiftl (Z.land b 15) 2); b64_pad]
  | a :: b :: c :: rest =>
      let a := Z_of_byte a in
      let b := Z_of_byte b in
      let c := Z_of_byte c in
      b64_char (Z.shiftr a 2)
      :: b64_char (Z.lor (Z.shiftl (Z.land a 3) 4) (Z.shiftr b 4))
      :: b64_char (Z.lor (Z.shiftl (Z.land b 15) 2) (Z.shiftr c 6))
      :: b64_char (Z.land c 63)
      :: b64encode rest
  end.

(** The octets of a group of four six-bit values. *)
Definition quad_byte1 (s1 s2 : Z) : byte :=
  byte_of_Z (Z.lor (Z.shiftl s1 2) (Z.shiftr s2 4)).
Definition quad_byte2 (s2 s3 : Z) : byte :=
  byte_of_Z (Z.lor (Z.shiftl (Z.land s2 15) 4) (Z.shiftr s3 2)).
Definition quad_byte3 (s3 s4 : Z) : byte :=
  byte_of_Z (Z.lor (Z.shiftl (Z.land s3 3) 6) s4).

(** The last group of four characters, which may end in one or two ['=']. *)
Definition b64decode_last (c1 c2 c3 c4 : byte) : option bytes :=
  match b64_index c1, b64_index c2 with
  | Some s1, Some s2 =>
      if Byte.eqb c3 b64_pad then
        if Byte.eqb c4 b64_pad then Some [quad_byte1 s1 s2] else None
      else
        match b64_index c3 with
        | Some s3 =>
            if Byte.eqb c4 b64_pad
            then Some [quad_byte1 s1 s2; quad_byte2 s2 s3]
            else
              match b64_index c4 with
              | Some s4 =>
                  Some [quad_byte1 s1 s2; quad_byte2 s2 s3; quad_byte3 s3 s4]
              | None => None
              end
        | None => None
        end
  | _, _ => None
  end.

(** [base64.b64decode(s, validate=True)]: [None] stands for
    [binascii.Error].  The input must be groups of four characters of the
    alphabet, of which only the last may end in one or two ['=']; any other
    character, and any other length, is an error. *)
Fixpoint b64decode (s : bytes) : option bytes :=
  match s with
  | [] => Some []
  | c1 :: c2 :: c3 :: c4 :: rest =>
      match rest with
      | [] => b64decode_last c1 c2 c3 c4
      | _ :: _ =>
          match b64_index c1, b64_index c2, b64_index c3, b64_index c4 with
          | Some s1, Some s2, Some s3, Some s4 =>
              match b64decode rest with
              | Some tail =>
                  Some (quad_byte1 s1 s2 :: quad_byte2 s2 s3
                        :: quad_byte3 s3 s4 :: tail)
              | None => None
              end
          | _, _, _, _ => None
          end
      end
  | _ => None
  end.

(** The characters that strict validation lets through: the alphabet and
    the padding. *)
Definition b64_valid (c : byte) : bool :=
  match b64_index c with
  | Some _ => true
  | None => Byte.eqb c b64_pad
  end.

(** An octet below 0x80. *)
Definition is_ascii (b : byte) : bool := Z_of_byte b <? 128.

(* --------------------------------------------------------------------- *)
(** *** [hashlib.sha1] (FIPS 180-4, section 6.1) *)
(* --------------------------------------------------------------------- *)

(** 32-bit words are integers in [0, 2^32); every operation that can leave
    that range is cut back with the mask. *)
Definition mask32 : Z := 0xFFFFFFFF.
Definition add32 (x y : Z) : Z := Z.land (x + y) mask32.
Definition not32 (x : Z) : Z := Z.lxor x mask32.
Definition rotl32 (n x : Z) : Z :=
  Z.land (Z.lor (Z.shiftl x n) (Z.shiftr x (32 - n))) mask32.

Definition sha1_f (t : nat) (b c d : Z) : Z :=
  if (t <? 20)%nat then Z.lor (Z.land b c) (Z.land (not32 b) d)
  else if (t <? 40)%nat then Z.lxor (Z.lxor b c) d
  else if (t <? 60)%nat then
    Z.lor (Z.lor (Z.land b c) (Z.land b d)) (Z.land c d)
  else Z.lxor (Z.lxor b c) d.

Definition sha1_k (t : nat) : Z :=
  if (t <? 20)%nat then 0x5A827999
  else if (t <? 40)%nat then 0x6ED9EBA1
  else if (t <? 60)%nat then 0x8F1BBCDC
  else 0xCA62C1D6.

(** Big-endian octets of a word of [n] octets. *)
Fixpoint to_bytes_big (n : nat) (x : Z) : bytes :=
  match n with
  | O => []
  | S n' => byte_of_Z (Z.shiftr x (8 * Z.of_nat n')) :: to_bytes_big n' x
  end.

(** The message, a 1 bit, zero bits up to 448 modulo 512, and the length
    of the message in bits as a 64-bit big-endian integer. *)
Definition sha1_pad (m : bytes) : bytes :=
  let l := Z.of_nat (List.length m) in
  m ++ [x80] ++ repeat x00 (Z.to_nat ((55 - l) mod 64))
    ++ to_bytes_big 8 (8 * l).

Fixpoint words_of_bytes (m : bytes) : list Z :=
  match m with
  | a :: b :: c :: d :: rest =>
      Z.lor (Z.lor (Z.lor (Z.shiftl (Z_of_byte a) 24)
                          (Z.shiftl (Z_of_byte b) 16))
                   (Z.shiftl (Z_of_byte c) 8))
            (Z_of_byte d)
      :: words_of_bytes rest
  | _ => []
  end.

(** The message schedule, latest word first: [w] holds W(t-1), W(t-2), ...
    and is extended by [n] more words. *)
Fixpoint sha1_schedule (n : nat) (w : list Z) : list Z :=
  match n with
  | O => w
  | S n' =>
      let x := Z.lxor (Z.lxor (Z.lxor (nth 2 w 0) (nth 7 w 0)) (nth 13 w 0))
                      (nth 15 w 0) in
      sha1_schedule n' (rotl32 1 x :: w)
  end.

Record sha1_state := Sha1State { hA : Z; hB : Z; hC : Z; hD : Z; hE : Z }.

Definition sha1_init : sha1_state :=
  Sha1State 0x67452301 0xEFCDAB89 0x98BADCFE 0x10325476 0xC3D2E1F0.

Definition sha1_round (s : sha1_state) (tw : nat * Z) : sha1_state :=
  let (t, w) := tw in
  let temp :=
    add32 (add32 (add32 (add32 (rotl32 5 (hA s)) (sha1_f t (hB s) (hC s) (hD s)))
                        (hE s))
                 (sha1_k t))
          w in
  Sha1State temp (hA s) (rotl32 30 (hB s)) (hC s) (hD s).

(** One block of sixteen words. *)
Definition sha1_block (h : sha1_state) (block : list Z) : sha1_state :=
  let w := rev (sha1_schedule 64 (rev block)) in
  let s := fold_left sha1_round (combine (seq 0 80) w) h in
  Sha1State (add32 (hA h) (hA s)) (add32 (hB h) (hB s)) (add32 (hC h) (hC s))
            (add32 (hD h) (hD s)) (add32 (hE h) (hE s)).

Fixpoint sha1_blocks (n : nat) (ws : list Z) (h : sha1_state) : sha1_state :=
  match n with
  | O => h
  | S n' => sha1_blocks n' (skipn 16 ws) (sha1_block h (firstn 16 ws))
  end.

(** [hashlib.sha1(m).digest()]: twenty octets. *)
Definition sha1 (m : bytes) : bytes :=
  let ws := words_of_bytes (sha1_pad m) in
  let h := sha1_blocks (Nat.div (List.length ws) 16) ws sha1_init in
  to_bytes_big 4 (hA h) ++ to_bytes_big 4 (hB h) ++ to_bytes_big 4 (hC h)
    ++ to_bytes_big 4 (hD h) ++ to_bytes_big 4 (hE h).

End Py.

Import Py.

(* ===================================================================== *)
(** ** Exceptions *)
(* ===================================================================== *)

(** The exceptions that the handshake functions raise or catch, each with
    the arguments it is constructed with in [handshake.py].
    [InvalidHeader] is raised with a name alone or with a name and a
    message; [InvalidHeaderValue] and [InvalidUpgrade] with a name and the
    offending value. *)
Inductive exn : Type :=
| KeyError (key : str)
| MultipleValuesError (key : str)
| binascii_Error
| InvalidHeader (name : str) (value : option str)
| InvalidHeaderValue (name : str) (value : str)
| InvalidUpgrade (name : str) (value : str).

(* ===================================================================== *)
(** ** [websockets.datastructures.Headers] *)
(* ===================================================================== *)

Module Datastructures.

(** Modelled from the spec: the [Headers] class of
    [websockets/datastructures.py], which is not among the source files.
    The spec (section 3) describes it as an ordered multi-map from
    case-insensitive header name to string values, with two ways to read
    ("all values for name, in encounter order" and "the single value for
    name, failing distinctly if zero or more than one occurrence exists"),
    and section 4.1 says that setting a header overwrites any prior value
    of that name.  It is an association list in encounter order. *)
Definition Headers := list (str * str).

Definition same_name (key : str) (entry : str * str) : bool :=
  String.eqb (lower (fst entry)) (lower key).

(** Modelled from the spec: [Headers.get_all(key)], all values for [key]
    in encounter order; the empty list when there is none. *)
Definition get_all (h : Headers) (key : str) : list str :=
  map snd (filter (same_name key) h).

(** Modelled from the spec: [Headers.__getitem__(key)], the single value
    for [key]; [KeyError] when there is none, [MultipleValuesError] when
    there is more than one. *)
Definition getitem (h : Headers) (key : str) : exn + str :=
  match get_all h key with
  | [] => inl (KeyError key)
  | [value] => inr value
  | _ :: _ :: _ => inl (MultipleValuesError key)
  end.

(** Modelled from the spec: [Headers.__setitem__(key, value)], which
    leaves [key] with the single value [value], "overwriting any prior
    value" of that name. *)
Definition setitem (h : Headers) (key value : str) : Headers :=
  filter (fun entry => negb (same_name key entry)) h ++ [(key, value)].

End Datastructures.

(* ===================================================================== *)
(** ** [websockets.headers]: the token lists of Connection and Upgrade *)
(* ===================================================================== *)

Module HeadersParsing.

Definition is_comma (c : ascii) : bool := Ascii.eqb c ",".

(** Optional white space of RFC 7230: space and horizontal tab. *)
Definition is_OWS (c : ascii) : bool :=
  Ascii.eqb c " " || Ascii.eqb c (ascii_of_nat 9).

(** [header.split(",")]. *)
Fixpoint split_commas (header : str) : list str :=
  match header with
  | EmptyString => [""]
  | String c rest =>
      if is_comma c then "" :: split_commas rest
      else
        match split_commas rest with
        | item :: items => String c item :: items
        | [] => [String c ""]
        end
  end.

Fixpoint lstrip_OWS (s : str) : str :=
  match s with
  | EmptyString => ""
  | String c rest => if is_OWS c then lstrip_OWS rest else s
  end.

Fixpoint rstrip_OWS (s : str) : str :=
  match s with
  | EmptyString => ""
  | String c rest =>
      match rstrip_OWS rest with
      | EmptyString => if is_OWS c then "" else String c ""
      | kept => String c kept
      end
  end.

Definition strip_OWS (s : str) : str := rstrip_OWS (lstrip_OWS s).

(** Modelled from the spec: the list parser of [websockets/headers.py],
    which is not among the source files.  The spec (section 3) obtains the
    tokens "by splitting each occurrence of the header on commas", and its
    design notes require that the white space around each token be
    trimmed. *)
Definition parse_list (header : str) : list str :=
  map strip_OWS (split_commas header).

(** Modelled from the spec: [parse_connection], the tokens of one
    occurrence of the Connection header. *)
Definition parse_connection (header : str) : list str := parse_list header.

(** Modelled from the spec: [parse_upgrade], the tokens of one occurrence
    of the Upgrade header. *)
Definition parse_upgrade (header : str) : list str := parse_list header.

End HeadersParsing.

(* ===================================================================== *)
(** ** The state and exception monad of the handshake functions *)
(* ===================================================================== *)

(** What a call can read and change: the [Headers] object it is given, and
    the operating system's random source, an unbounded sequence of octets
    of which [consumed] have been drawn. *)
Record world : Type := World {
  headers : Datastructures.Headers;
  urandom : nat -> byte;
  consumed : nat
}.

Inductive outcome (A : Type) : Type :=
| Returns (a : A)
| Raises (e : exn).
Arguments Returns {A} a.
Arguments Raises {A} e.

Definition M (A : Type) : Type := world -> outcome A * world.

Definition ret {A} (a : A) : M A := fun w => (Returns a, w).

Definition raise {A} (e : exn) : M A := fun w => (Raises e, w).

Definition bind {A B} (m : M A) (k : A -> M B) : M B :=
  fun w =>
    match m w with
    | (Returns a, w') => k a w'
    | (Raises e, w') => (Raises e, w')
    end.

(** [try: m  except ...: handler]; a handler re-raises what it does not
    catch. *)
Definition try_except {A} (m : M A) (handler : exn -> M A) : M A :=
  fun w =>
    match m w with
    | (Returns a, w') => (Returns a, w')
    | (Raises e, w') => handler e w'
    end.

Declare Scope handshake_scope.
Delimit Scope handshake_scope with hs.
Notation "x <- m ;; k" := (bind m (fun x => k))
  (at level 61, m at next level, right associativity) : handshake_scope.
Notation "m ;; k" := (bind m (fun _ => k))
  (at level 61, right associativity) : handshake_scope.
Local Open Scope handshake_scope.

(** The result and the final state of running a computation. *)
Definition result {A} (m : M A) (w : world) : outcome A := fst (m w).
Definition final {A} (m : M A) (w : world) : world := snd (m w).

(** The [Headers] methods, on the object held in the state. *)
Definition get_all (key : str) : M (list str) :=
  fun w => (Returns (Datastructures.get_all (headers w) key), w).

Definition getitem (key : str) : M str :=
  fun w =>
    match Datastructures.getitem (headers w) key with
    | inr value => (Returns value, w)
    | inl e => (Raises e, w)
    end.

Definition setitem (key value : str) : M unit :=
  fun w =>
    (Returns tt,
     World (Datastructures.setitem (headers w) key value)
           (urandom w) (consumed w)).

(** [secrets.token_bytes(n)]: the next [n] octets of the random source. *)
Definition token_bytes (n : nat) : M bytes :=
  fun w =>
    (Returns (map (urandom w) (seq (consumed w) n)),
     World (headers w) (urandom w) (consumed w + n)%nat).

(** [base64.b64decode(s, validate=True)], raising [binascii.Error]. *)
Definition base64_b64decode (s : bytes) : M bytes :=
  match b64decode s with
  | Some raw => ret raw
  | None => raise binascii_Error
  end.

(* ===================================================================== *)
(** ** [websockets.utils] *)
(* ===================================================================== *)

Module Utils.

Definition GUID : str := "258EAFA5-E914-47DA-95CA-C5AB0DC85B11".

(** Modelled from the spec: [generate_key] of [websockets/utils.py], which
    is not among the source files: "generate a fresh cryptographically
    random 16-byte value, base64-encode it to produce the Nonce string"
    (section 4.1). *)
Definition generate_key : M str :=
  key <- token_bytes 16 ;;
  ret (decode (b64encode key)).

(** Modelled from the spec: [accept_key] of [websockets/utils.py], which is
    not among the source files: "AcceptValue =
    base64(SHA-1(key ++ GUID)) using ASCII/UTF-8 byte concatenation of
    the key string and the fixed magic constant" (section 4.3). *)
Definition accept_key (key : str) : str :=
  decode (b64encode (sha1 (encode (key ++ GUID)%string))).

End Utils.

(** [from ..utils import accept_key as accept, generate_key] *)
Definition accept : str -> str := Utils.accept_key.
Definition generate_key : M str := Utils.generate_key.
Definition parse_connection := HeadersParsing.parse_connection.
Definition parse_upgrade := HeadersParsing.parse_upgrade.

(* ===================================================================== *)
(** ** [websockets.legacy.handshake] *)
(* ===================================================================== *)

(** [sum(lists, [])]: the lists added up from the left. *)
Definition sum_lists {A} (lists : list (list A)) : list A :=
  fold_left (@app A) lists [].

(** [any(p(value) for value in values)] *)
Definition any {A} (p : A -> bool) (values : list A) : bool := existsb p values.

(** [build_request(headers)], lines 17-35. *)
Definition build_request : M str :=
  key <- generate_key ;;
  setitem "Upgrade" "websocket" ;;
  setitem "Connection" "Upgrade" ;;
  setitem "Sec-WebSocket-Key" key ;;
  setitem "Sec-WebSocket-Version" "13" ;;
  ret key.

(** [check_request(headers)], lines 38-103. *)
Definition check_request : M str :=
  values <- get_all "Connection" ;;
  let connection := sum_lists (map parse_connection values) in
  if negb (any (fun value => String.eqb (lower value) "upgrade") connection)
  then raise (InvalidUpgrade "Connection" (join ", " connection))
  else
  values <- get_all "Upgrade" ;;
  let upgrade := sum_lists (map parse_upgrade values) in
  if negb (Nat.eqb (List.length upgrade) 1
           && String.eqb (lower (nth 0 upgrade "")) "websocket")
  then raise (InvalidUpgrade "Upgrade" (join ", " upgrade))
  else
  s_w_key <-
    try_except (getitem "Sec-WebSocket-Key")
      (fun exc =>
         match exc with
         | KeyError _ => raise (InvalidHeader "Sec-WebSocket-Key" None)
         | MultipleValuesError _ =>
             raise (InvalidHeader "Sec-WebSocket-Key"
                      (Some "more than one Sec-WebSocket-Key header found"))
         | _ => raise exc
         end) ;;
  raw_key <-
    try_except (base64_b64decode (encode s_w_key))
      (fun exc =>
         match exc with
         | binascii_Error =>
             raise (InvalidHeaderValue "Sec-WebSocket-Key" s_w_key)
         | _ => raise exc
         end) ;;
  if negb (Nat.eqb (List.length raw_key) 16)
  then raise (InvalidHeaderValue "Sec-WebSocket-Key" s_w_key)
  else
  s_w_version <-
    try_except (getitem "Sec-WebSocket-Version")
      (fun exc =>
         match exc with
         | KeyError _ => raise (InvalidHeader "Sec-WebSocket-Version" None)
         | MultipleValuesError _ =>
             raise (InvalidHeader "Sec-WebSocket-Version"
                      (Some "more than one Sec-WebSocket-Version header found"))
         | _ => raise exc
         end) ;;
  if negb (String.eqb s_w_version "13")
  then raise (InvalidHeaderValue "Sec-WebSocket-Version" s_w_version)
  else ret s_w_key.

(** [build_response(headers, key)], lines 106-119. *)
Definition build_response (key : str) : M unit :=
  setitem "Upgrade" "websocket" ;;
  setitem "Connection" "Upgrade" ;;
  setitem "Sec-WebSocket-Accept" (accept key).

(** [check_response(headers, key)], lines 122-165.  The value of the
    Connection failure is joined with [" "] here and with [", "] in
    [check_request]. *)
Definition check_response (key : str) : M unit :=
  values <- get_all "Connection" ;;
  let connection := sum_lists (map parse_connection values) in
  if negb (any (fun value => String.eqb (lower value) "upgrade") connection)
  then raise (InvalidUpgrade "Connection" (join " " connection))
  else
  values <- get_all "Upgrade" ;;
  let upgrade := sum_lists (map parse_upgrade values) in
  if negb (Nat.eqb (List.length upgrade) 1
           && String.eqb (lower (nth 0 upgrade "")) "websocket")
  then raise (InvalidUpgrade "Upgrade" (join ", " upgrade))
  else
  s_w_accept <-
    try_except (getitem "Sec-WebSocket-Accept")
      (fun exc =>
         match exc with
         | KeyError _ => raise (InvalidHeader "Sec-WebSocket-Accept" None)
         | MultipleValuesError _ =>
             raise (InvalidHeader "Sec-WebSocket-Accept"
                      (Some "more than one Sec-WebSocket-Accept header found"))
         | _ => raise exc
         end) ;;
  if negb (String.eqb s_w_accept (accept key))
  then raise (InvalidHeaderValue "Sec-WebSocket-Accept" s_w_accept)
  else ret tt.

(* ===================================================================== *)
(** ** The validation steps, as the specification words them *)
(* ===================================================================== *)

Module Steps.

Import Datastructures.

(** The flattened tokens of all occurrences of a header. *)
Definition connection_tokens (h : Headers) : list str :=
  sum_lists (map parse_connection (Datastructures.get_all h "Connection")).

Definition upgrade_tokens (h : Headers) : list str :=
  sum_lists (map parse_upgrade (Datastructures.get_all h "Upgrade")).

(** "at least one token case-insensitively equals upgrade" *)
Definition has_upgrade (tokens : list str) : bool :=
  existsb (fun value => String.eqb (lower value) "upgrade") tokens.

(** "there is exactly one token and it case-insensitively equals
    websocket" *)
Definition only_websocket (tokens : list str) : bool :=
  match tokens with
  | [token] => String.eqb (lower token) "websocket"
  | _ => false
  end.

(** A validation step reads the values of one header and either is
    satisfied or names the failure to raise. *)
Record rule : Type := Rule {
  reads : str;
  verdict : list str -> option exn
}.

Definition violation (r : rule) (h : Headers) : option exn :=
  verdict r (Datastructures.get_all h (reads r)).

(** Fail-fast: the failure of the first step that is violated. *)
Fixpoint first_violation (rules : list rule) (h : Headers) : option exn :=
  match rules with
  | [] => None
  | r :: rest =>
      match violation r h with
      | Some e => Some e
      | None => first_violation rest h
      end
  end.

(** Section 4.2, step 1 (and section 4.4, with the separator of the
    reported value as a parameter). *)
Definition rule_connection (sep : str) : rule :=
  Rule "Connection"
    (fun values =>
       let tokens := sum_lists (map parse_connection values) in
       if has_upgrade tokens then None
       else Some (InvalidUpgrade "Connection" (join sep tokens))).

(** Section 4.2, step 2. *)
Definition rule_upgrade : rule :=
  Rule "Upgrade"
    (fun values =>
       let tokens := sum_lists (map parse_upgrade values) in
       if only_websocket tokens then None
       else Some (InvalidUpgrade "Upgrade" (join ", " tokens))).

(** Single-value semantics: absent and duplicated are [InvalidHeader]. *)
Definition rule_single (name : str) : rule :=
  Rule name
    (fun values =>
       match values with
       | [] => Some (InvalidHeader name None)
       | [_] => None
       | _ :: _ :: _ =>
           Some (InvalidHeader name
                   (Some ("more than one " ++ name ++ " header found")%string))
       end).

(** Section 4.2, step 4: the single key decodes, strictly, to 16 octets. *)
Definition rule_key_value : rule :=
  Rule "Sec-WebSocket-Key"
    (fun values =>
       match values with
       | [key] =>
           match b64decode (encode key) with
           | Some raw =>
               if Nat.eqb (List.length raw) 16 then None
               else Some (InvalidHeaderValue "Sec-WebSocket-Key" key)
           | None => Some (InvalidHeaderValue "Sec-WebSocket-Key" key)
           end
       | _ => None
       end).

(** The single value of a header is exactly [expected]. *)
Definition rule_exact (name expected : str) : rule :=
  Rule name
    (fun values =>
       match values with
       | [value] =>
           if String.eqb value expected then None
           else Some (InvalidHeaderValue name value)
       | _ => None
       end).

(** Section 4.2: the steps of RequestValidator in their order; step 5 is
    the presence and then the value of Sec-WebSocket-Version. *)
Definition request_rules : list rule :=
  [ rule_connection ", ";
    rule_upgrade;
    rule_single "Sec-WebSocket-Key";
    rule_key_value;
    rule_single "Sec-WebSocket-Version";
    rule_exact "Sec-WebSocket-Version" "13" ].

(** Section 4.4: the steps of ResponseValidator for the nonce [key]. *)
Definition response_rules (key : str) : list rule :=
  [ rule_connection " ";
    rule_upgrade;
    rule_single "Sec-WebSocket-Accept";
    rule_exact "Sec-WebSocket-Accept" (accept key) ].

(** RequestValidator: the first violated step fails the check; with none
    violated the output is the key string. *)
Definition check_request_spec (h : Headers) : outcome str :=
  match first_violation request_rules h with
  | Some e => Raises e
  | None => Returns (nth 0 (Datastructures.get_all h "Sec-WebSocket-Key") "")
  end.

Definition check_response_spec (key : str) (h : Headers) : outcome unit :=
  match first_violation (response_rules key) h with
  | Some e => Raises e
  | None => Returns tt
  end.

(** The kind of an [InvalidUpgrade] failure: which header it names. *)
Definition upgrade_failure {A} (r : outcome A) : option str :=
  match r with
  | Raises (InvalidUpgrade name _) => Some name
  | _ => None
  end.

(** Two collections that hold the same values for every header that the
    given steps read. *)
Definition agree_on (rules : list rule) (h h' : Headers) : Prop :=
  forall r, In r rules ->
    Datastructures.get_all h' (reads r) = Datastructures.get_all h (reads r).

End Steps.

Import Steps.

(* ===================================================================== *)
(** ** Sample handshakes *)
(* ===================================================================== *)

Module Examples.

Import Datastructures.

(** A random source that counts: octet [n] is [n] modulo 256. *)
Definition counting : nat -> byte := fun n => byte_of_Z (Z.of_nat n).

Definition world_of (h : Headers) : world := World h counting 0.

(** The worked example of RFC 6455, section 1.3. *)
Definition rfc_key : str := "dGhlIHNhbXBsZSBub25jZQ==".
Definition rfc_accept : str := "s3pPLMBiTxaQ9kYGzzhZRbK+xOo=".

Definition request (connection upgrade key : str) (versions : list str)
  : Headers :=
  [("Host", "server.example.com"); ("Connection", connection);
   ("Upgrade", upgrade); ("Sec-WebSocket-Key", key)]
  ++ map (fun version => ("Sec-WebSocket-Version", version)) versions.

Definition valid_request : Headers :=
  request "Upgrade" "websocket" rfc_key ["13"].

Definition upgrade_chat : Headers :=
  request "Upgrade" "chat" rfc_key ["13"].


Definition upgrade_mixed_case : Headers :=
  request "Upgrade" "WebSocket" rfc_key ["13"].

Definition connection_keep_alive : Headers :=
  request "keep-alive, Upgrade" "websocket" rfc_key ["13"].

Definition connection_absent : Headers :=
  [("Host", "server.example.com"); ("Upgrade", "websocket");
   ("Sec-WebSocket-Key", rfc_key); ("Sec-WebSocket-Version", "13")].

(** The base64 of the octets 0 .. 14, of 0 .. 16, and of 0 .. 15 followed
    by a line feed. *)
Definition key_15 : str := "AAECAwQFBgcICQoLDA0O".
Definition key_17 : str := "AAECAwQFBgcICQoLDA0ODxA=".
Definition key_line_feed : str :=
  String.append "AAECAwQFBgcICQoLDA0ODw==" (String (ascii_of_nat 10) "").

Definition short_key : Headers := request "Upgrade" "websocket" key_15 ["13"].
Definition long_key : Headers := request "Upgrade" "websocket" key_17 ["13"].
Definition foreign_key : Headers :=
  request "Upgrade" "websocket" key_line_feed ["13"].

Definition version_absent : Headers :=
  request "Upgrade" "websocket" rfc_key [].
Definition version_twice : Headers :=
  request "Upgrade" "websocket" rfc_key ["13"; "13"].
Definition version_8 : Headers :=
  request "Upgrade" "websocket" rfc_key ["8"].

End Examples.

(* ===================================================================== *)
(** ** Vocabulary for the further properties *)
(* ===================================================================== *)

Module Properties.

Import Datastructures.

(** The exceptions that [handshake.py] imports from
    [websockets.exceptions] and raises itself, as opposed to those it
    catches ([KeyError], [MultipleValuesError], [binascii.Error]). *)
Definition is_invalid_handshake (e : exn) : bool :=
  match e with
  | InvalidHeader _ _ | InvalidHeaderValue _ _ | InvalidUpgrade _ _ => true
  | KeyError _ | MultipleValuesError _ | binascii_Error => false
  end.

(** The headers that [check_request] reads (lines 59, 66, 76, 92) and that
    [build_request] sets (lines 31-34). *)
Definition request_headers : list str :=
  ["Connection"; "Upgrade"; "Sec-WebSocket-Key"; "Sec-WebSocket-Version"].

(** The headers that [check_response] reads (lines 139, 146, 156) and that
    [build_response] sets (lines 117-119). *)
Definition response_headers : list str :=
  ["Connection"; "Upgrade"; "Sec-WebSocket-Accept"].

(** [h'] holds the same values as [h] for each of [names]. *)
Definition same_values (names : list str) (h h' : Headers) : Prop :=
  forall name, In name names ->
    Datastructures.get_all h' name = Datastructures.get_all h name.

(** [h] holds none of [names]. *)
Definition holds_none (names : list str) (h : Headers) : Prop :=
  forall name, In name names -> Datastructures.get_all h name = [].

(** [name] is, up to case, none of [names]. *)
Definition other_header (names : list str) (name : str) : Prop :=
  forall set, In set names -> lower set <> lower name.

(** A request as a server may receive it: the headers of a browser, with
    Connection in two occurrences. *)
Definition browser_request : Headers :=
  [("Host", "server.example.com"); ("Connection", "keep-alive");
   ("Origin", "http://example.com"); ("Connection", "Upgrade");
   ("Upgrade", "websocket"); ("Sec-WebSocket-Version", "13");
   ("Sec-WebSocket-Key", "dGhlIHNhbXBsZSBub25jZQ==")].

(** The same handshake headers with nothing else, in another order. *)
Definition bare_request : Headers :=
  [("Sec-WebSocket-Key", "dGhlIHNhbXBsZSBub25jZQ=="); ("Upgrade", "websocket");
   ("Connection", "keep-alive"); ("Connection", "Upgrade");
   ("Sec-WebSocket-Version", "13")].

Definition upgrade_twice : Headers :=
  [("Connection", "Upgrade"); ("Upgrade", "websocket");
   ("Upgrade", "websocket");
   ("Sec-WebSocket-Key", "dGhlIHNhbXBsZSBub25jZQ==");
   ("Sec-WebSocket-Version", "13")].

Definition key_absent : Headers :=
  [("Connection", "Upgrade"); ("Upgrade", "websocket");
   ("Sec-WebSocket-Version", "13")].

Definition key_twice : Headers :=
  [("Connection", "Upgrade"); ("Upgrade", "websocket");
   ("Sec-WebSocket-Key", "dGhlIHNhbXBsZSBub25jZQ==");
   ("Sec-WebSocket-Key", "dGhlIHNhbXBsZSBub25jZQ==");
   ("Sec-WebSocket-Version", "13")].

Definition response (accepts : list str) : Headers :=
  [("Upgrade", "websocket"); ("Connection", "Upgrade")]
  ++ map (fun value => ("Sec-WebSocket-Accept", value)) accepts.

(** Some other headers that a server puts in its response. *)
Definition server_headers : Headers :=
  [("Date", "Thu, 01 Jan 2026 00:00:00 GMT"); ("Server", "example")].

End Properties.

Import Properties.

(* ===================================================================== *)
(** * Proofs *)
(* ===================================================================== *)

(* --------------------------------------------------------------------- *)
(** ** Octets and base64 *)
(* --------------------------------------------------------------------- *)

Lemma Z_of_byte_range (b : byte) : 0 <= Z_of_byte b < 256.
Proof.
  unfold Z_of_byte. pose proof (Byte.to_N_bounded b). lia.
Qed.

Lemma byte_of_Z_of_byte (b : byte) : byte_of_Z (Z_of_byte b) = b.
Proof.
  unfold byte_of_Z. rewrite Z.mod_small by apply Z_of_byte_range.
  unfold Z_of_byte. rewrite N2Z.id, Byte.of_to_N. reflexivity.
Qed.

Lemma lor_shiftl_low (x y n : Z) :
  0 <= n -> 0 <= y < 2 ^ n -> Z.lor (Z.shiftl x n) y = x * 2 ^ n + y.
Proof.
  intros Hn Hy.
  assert (Hland : Z.land (Z.shiftl x n) y = 0).
  { apply Z.bits_inj'. intros m Hm.
    rewrite Z.land_spec, Z.bits_0.
    destruct (Z.ltb_spec m n) as [Hlt|Hge].
    - rewrite Z.shiftl_spec_low by assumption. reflexivity.
    - rewrite <- (Z.mod_small y (2 ^ n)) by assumption.
      rewrite Z.mod_pow2_bits_high by lia. apply andb_false_r. }
  rewrite <- Z.lxor_lor by assumption.
  rewrite <- Z.add_nocarry_lxor by assumption.
  rewrite Z.shiftl_mul_pow2 by assumption. reflexivity.
Qed.

Lemma b64_index_char (i : Z) : 0 <= i < 64 -> b64_index (b64_char i) = Some i.
Proof.
  intros Hi.
  rewrite <- (Z2Nat.id i) by lia.
  assert (Hn : (Z.to_nat i < 64)%nat) by lia.
  unfold b64_char. rewrite Nat2Z.id.
  generalize dependent (Z.to_nat i). intros n Hn.
  do 64 (destruct n as [|n]; [reflexivity|]).
  lia.
Qed.

Ltac arith := Z.div_mod_to_equations; lia.

Lemma land3 x : Z.land x 3 = x mod 4.
Proof. change 3 with (Z.ones 2). rewrite Z.land_ones by lia. reflexivity. Qed.
Lemma land15 x : Z.land x 15 = x mod 16.
Proof. change 15 with (Z.ones 4). rewrite Z.land_ones by lia. reflexivity. Qed.
Lemma land63 x : Z.land x 63 = x mod 64.
Proof. change 63 with (Z.ones 6). rewrite Z.land_ones by lia. reflexivity. Qed.
Lemma shiftr2 x : Z.shiftr x 2 = x / 4.
Proof. rewrite Z.shiftr_div_pow2 by lia. reflexivity. Qed.
Lemma shiftr4 x : Z.shiftr x 4 = x / 16.
Proof. rewrite Z.shiftr_div_pow2 by lia. reflexivity. Qed.
Lemma shiftr6 x : Z.shiftr x 6 = x / 64.
Proof. rewrite Z.shiftr_div_pow2 by lia. reflexivity. Qed.
Lemma shiftl2 x : Z.shiftl x 2 = x * 4.
Proof. rewrite Z.shiftl_mul_pow2 by lia. reflexivity. Qed.
Lemma shiftl4 x : Z.shiftl x 4 = x * 16.
Proof. rewrite Z.shiftl_mul_pow2 by lia. reflexivity. Qed.
Lemma lor_shl2 x y : 0 <= y < 4 -> Z.lor (Z.shiftl x 2) y = x * 4 + y.
Proof. intros. rewrite lor_shiftl_low by (change (2 ^ 2) with 4; lia). reflexivity. Qed.
Lemma lor_shl4 x y : 0 <= y < 16 -> Z.lor (Z.shiftl x 4) y = x * 16 + y.
Proof. intros. rewrite lor_shiftl_low by (change (2 ^ 4) with 16; lia). reflexivity. Qed.
Lemma lor_shl6 x y : 0 <= y < 64 -> Z.lor (Z.shiftl x 6) y = x * 64 + y.
Proof. intros. rewrite lor_shiftl_low by (change (2 ^ 6) with 64; lia). reflexivity. Qed.

(** The six-bit groups of three octets, in arithmetic. *)
Lemma sextet2_arith a b :
  0 <= b < 256 ->
  Z.lor (Z.shiftl (Z.land a 3) 4) (Z.shiftr b 4) = a mod 4 * 16 + b / 16.
Proof.
  intros. rewrite land3, shiftr4, lor_shl4 by arith. reflexivity.
Qed.

Lemma sextet3_arith b c :
  0 <= c < 256 ->
  Z.lor (Z.shiftl (Z.land b 15) 2) (Z.shiftr c 6) = b mod 16 * 4 + c / 64.
Proof.
  intros. rewrite land15, shiftr6, lor_shl2 by arith. reflexivity.
Qed.

Lemma quad_byte1_arith s1 s2 :
  0 <= s2 < 64 -> quad_byte1 s1 s2 = byte_of_Z (s1 * 4 + s2 / 16).
Proof.
  intros. unfold quad_byte1. rewrite shiftr4, lor_shl2 by arith. reflexivity.
Qed.

Lemma quad_byte2_arith s2 s3 :
  0 <= s3 < 64 -> quad_byte2 s2 s3 = byte_of_Z (s2 mod 16 * 16 + s3 / 4).
Proof.
  intros. unfold quad_byte2. rewrite land15, shiftr2, lor_shl4 by arith.
  reflexivity.
Qed.

Lemma quad_byte3_arith s3 s4 :
  0 <= s4 < 64 -> quad_byte3 s3 s4 = byte_of_Z (s3 mod 4 * 64 + s4).
Proof.
  intros. unfold quad_byte3. rewrite land3, lor_shl6 by arith. reflexivity.
Qed.

Lemma byte_of_Z_eq (z : Z) (b : byte) : z = Z_of_byte b -> byte_of_Z z = b.
Proof. intros ->. apply byte_of_Z_of_byte. Qed.

Lemma b64_index_pad : b64_index b64_pad = None.
Proof. reflexivity. Qed.

Lemma b64_char_not_pad (i : Z) :
  0 <= i < 64 -> Byte.eqb (b64_char i) b64_pad = false.
Proof.
  intros Hi. destruct (Byte.eqb (b64_char i) b64_pad) eqn:E; [|reflexivity].
  apply Byte.byte_dec_bl in E.
  pose proof (b64_index_char i Hi) as H. rewrite E in H. discriminate.
Qed.

Lemma b64encode_nil_inv (s : bytes) : b64encode s = [] -> s = [].
Proof.
  destruct s as [|a [|b [|c rest]]]; cbn; intros H; [reflexivity|discriminate..].
Qed.

(** Induction three octets at a time. *)
Lemma bytes_ind3 (P : bytes -> Prop) :
  P [] -> (forall a, P [a]) -> (forall a b, P [a; b]) ->
  (forall a b c rest, P rest -> P (a :: b :: c :: rest)) ->
  forall s, P s.
Proof.
  intros H0 H1 H2 H3.
  fix IH 1. intros [|a [|b [|c rest]]].
  - exact H0.
  - apply H1.
  - apply H2.
  - apply H3. apply IH.
Qed.

Lemma b64decode_full (a b c : byte) :
  let za := Z_of_byte a in let zb := Z_of_byte b in let zc := Z_of_byte c in
  let s1 := Z.shiftr za 2 in
  let s2 := Z.lor (Z.shiftl (Z.land za 3) 4) (Z.shiftr zb 4) in
  let s3 := Z.lor (Z.shiftl (Z.land zb 15) 2) (Z.shiftr zc 6) in
  let s4 := Z.land zc 63 in
  (0 <= s1 < 64 /\ 0 <= s2 < 64 /\ 0 <= s3 < 64 /\ 0 <= s4 < 64)
  /\ quad_byte1 s1 s2 = a /\ quad_byte2 s2 s3 = b /\ quad_byte3 s3 s4 = c.
Proof.
  intros za zb zc s1 s2 s3 s4.
  pose proof (Z_of_byte_range a) as Ha. pose proof (Z_of_byte_range b) as Hb.
  pose proof (Z_of_byte_range c) as Hc. fold za in Ha. fold zb in Hb. fold zc in Hc.
  assert (E1 : s1 = za / 4) by apply shiftr2.
  assert (E2 : s2 = za mod 4 * 16 + zb / 16) by (apply sextet2_arith; assumption).
  assert (E3 : s3 = zb mod 16 * 4 + zc / 64) by (apply sextet3_arith; assumption).
  assert (E4 : s4 = zc mod 64) by apply land63.
  clearbody s1 s2 s3 s4.
  assert (R : 0 <= s1 < 64 /\ 0 <= s2 < 64 /\ 0 <= s3 < 64 /\ 0 <= s4 < 64) by arith.
  split; [exact R|].
  rewrite quad_byte1_arith, quad_byte2_arith, quad_byte3_arith by tauto.
  repeat split; apply byte_of_Z_eq; subst za zb zc; arith.
Qed.

Lemma b64decode_one (a : byte) :
  let za := Z_of_byte a in
  let s1 := Z.shiftr za 2 in
  let s2 := Z.shiftl (Z.land za 3) 4 in
  (0 <= s1 < 64 /\ 0 <= s2 < 64) /\ quad_byte1 s1 s2 = a.
Proof.
  intros za s1 s2.
  pose proof (Z_of_byte_range a) as Ha. fold za in Ha.
  assert (E1 : s1 = za / 4) by apply shiftr2.
  assert (E2 : s2 = za mod 4 * 16) by (unfold s2; rewrite land3, shiftl4; reflexivity).
  clearbody s1 s2.
  assert (R : 0 <= s1 < 64 /\ 0 <= s2 < 64) by arith.
  split; [exact R|].
  rewrite quad_byte1_arith by tauto.
  apply byte_of_Z_eq; subst za; arith.
Qed.

Lemma b64decode_two (a b : byte) :
  let za := Z_of_byte a in let zb := Z_of_byte b in
  let s1 := Z.shiftr za 2 in
  let s2 := Z.lor (Z.shiftl (Z.land za 3) 4) (Z.shiftr zb 4) in
  let s3 := Z.shiftl (Z.land zb 15) 2 in
  (0 <= s1 < 64 /\ 0 <= s2 < 64 /\ 0 <= s3 < 64)
  /\ quad_byte1 s1 s2 = a /\ quad_byte2 s2 s3 = b.
Proof.
  intros za zb s1 s2 s3.
  pose proof (Z_of_byte_range a) as Ha. pose proof (Z_of_byte_range b) as Hb.
  fold za in Ha. fold zb in Hb.
  assert (E1 : s1 = za / 4) by apply shiftr2.
  assert (E2 : s2 = za mod 4 * 16 + zb / 16) by (apply sextet2_arith; assumption).
  assert (E3 : s3 = zb mod 16 * 4) by (unfold s3; rewrite land15, shiftl2; reflexivity).
  clearbody s1 s2 s3.
  assert (R : 0 <= s1 < 64 /\ 0 <= s2 < 64 /\ 0 <= s3 < 64) by arith.
  split; [exact R|].
  rewrite quad_byte1_arith, quad_byte2_arith by tauto.
  split; apply byte_of_Z_eq; subst za zb; arith.
Qed.

Lemma b64decode_more (c1 c2 c3 c4 x : byte) (xs : bytes) :
  b64decode (c1 :: c2 :: c3 :: c4 :: x :: xs) =
  match b64_index c1, b64_index c2, b64_index c3, b64_index c4 with
  | Some s1, Some s2, Some s3, Some s4 =>
      match b64decode (x :: xs) with
      | Some tail =>
          Some (quad_byte1 s1 s2 :: quad_byte2 s2 s3 :: quad_byte3 s3 s4 :: tail)
      | None => None
      end
  | _, _, _, _ => None
  end.
Proof. reflexivity. Qed.

Lemma b64decode_four (c1 c2 c3 c4 : byte) :
  b64decode [c1; c2; c3; c4] = b64decode_last c1 c2 c3 c4.
Proof. reflexivity. Qed.

(** Decoding undoes encoding. *)
Lemma b64decode_b64encode (s : bytes) : b64decode (b64encode s) = Some s.
Proof.
  induction s as [|a|a b|a b c rest IH] using bytes_ind3.
  - reflexivity.
  - destruct (b64decode_one a) as [[R1 R2] E1].
    cbn [b64encode]. rewrite b64decode_four. unfold b64decode_last.
    rewrite !b64_index_char by assumption.
    change (Byte.eqb b64_pad b64_pad) with true. cbv iota.
    rewrite E1. reflexivity.
  - destruct (b64decode_two a b) as [[R1 [R2 R3]] [E1 E2]].
    cbn [b64encode]. rewrite b64decode_four. unfold b64decode_last.
    rewrite !b64_index_char by assumption.
    rewrite (b64_char_not_pad _ R3).
    change (Byte.eqb b64_pad b64_pad) with true. cbv iota.
    rewrite E1, E2. reflexivity.
  - destruct (b64decode_full a b c) as [[R1 [R2 [R3 R4]]] [E1 [E2 E3]]].
    cbn [b64encode].
    destruct (b64encode rest) as [|x xs] eqn:Erest.
    + apply b64encode_nil_inv in Erest. subst rest.
      rewrite b64decode_four. unfold b64decode_last.
      rewrite !b64_index_char by assumption.
      rewrite (b64_char_not_pad _ R3), (b64_char_not_pad _ R4).
      rewrite E1, E2, E3. reflexivity.
    + rewrite b64decode_more.
      rewrite !b64_index_char by assumption.
      rewrite IH, E1, E2, E3. reflexivity.
Qed.

(** Every character that [b64encode] writes is ASCII. *)
Lemma b64_char_ascii (i : Z) : is_ascii (b64_char i) = true.
Proof.
  unfold b64_char. generalize (Z.to_nat i). intros n.
  do 64 (destruct n as [|n]; [reflexivity|]). reflexivity.
Qed.

Lemma b64encode_ascii (s : bytes) : forallb is_ascii (b64encode s) = true.
Proof.
  induction s as [|a|a b|a b c rest IH] using bytes_ind3;
    cbn [b64encode forallb]; rewrite ?b64_char_ascii, ?IH; reflexivity.
Qed.

Lemma encode_char_ascii (b : byte) :
  is_ascii b = true -> encode_char (ascii_of_byte b) = [b].
Proof.
  destruct b; intros H; try reflexivity; discriminate H.
Qed.

Lemma encode_decode (s : bytes) :
  forallb is_ascii s = true -> encode (decode s) = s.
Proof.
  induction s as [|b s IH]; cbn [forallb decode encode]; intros H.
  - reflexivity.
  - apply andb_prop in H. destruct H as [Hb Hs].
    rewrite encode_char_ascii, IH by assumption. reflexivity.
Qed.

Lemma encode_app (s t : str) : encode (s ++ t)%string = encode s ++ encode t.
Proof.
  induction s as [|c s IH]; cbn [String.append encode].
  - reflexivity.
  - rewrite IH, app_assoc. reflexivity.
Qed.

(** The key that [generate_key] makes of sixteen octets passes step 4. *)
Lemma b64decode_generated (raw : bytes) :
  b64decode (encode (decode (b64encode raw))) = Some raw.
Proof.
  rewrite encode_decode by apply b64encode_ascii. apply b64decode_b64encode.
Qed.

(** Strict validation: a character outside the alphabet and the padding
    makes decoding fail, and so does a length that is not a multiple of
    four. *)
Lemma bytes_ind4 (P : bytes -> Prop) :
  P [] -> (forall a, P [a]) -> (forall a b, P [a; b]) ->
  (forall a b c, P [a; b; c]) ->
  (forall a b c d rest, P rest -> P (a :: b :: c :: d :: rest)) ->
  forall s, P s.
Proof.
  intros H0 H1 H2 H3 H4.
  fix IH 1. intros [|a [|b [|c [|d rest]]]].
  - exact H0.
  - apply H1.
  - apply H2.
  - apply H3.
  - apply H4. apply IH.
Qed.

Lemma b64decode_valid (s raw : bytes) :
  b64decode s = Some raw ->
  forallb b64_valid s = true /\ (List.length s mod 4 = 0)%nat.
Proof.
  revert raw.
  induction s as [|a|a b|a b c|a b c d rest IH] using bytes_ind4;
    intros raw H; try discriminate H.
  - split; reflexivity.
  - destruct rest as [|x xs].
    + rewrite b64decode_four in H. unfold b64decode_last in H.
      split; [|reflexivity].
      cbn [forallb]. unfold b64_valid.
      destruct (b64_index a); [|discriminate H].
      destruct (b64_index b); [|discriminate H].
      destruct (Byte.eqb c b64_pad).
      * destruct (Byte.eqb d b64_pad); [|discriminate H].
        destruct (b64_index c), (b64_index d); reflexivity.
      * destruct (b64_index c); [|discriminate H].
        destruct (Byte.eqb d b64_pad).
        -- destruct (b64_index d); reflexivity.
        -- destruct (b64_index d); [reflexivity|discriminate H].
    + rewrite b64decode_more in H.
      destruct (b64_index a) eqn:Ea; [|discriminate H].
      destruct (b64_index b) eqn:Eb; [|discriminate H].
      destruct (b64_index c) eqn:Ec; [|discriminate H].
      destruct (b64_index d) eqn:Ed; [|discriminate H].
      destruct (b64decode (x :: xs)) as [tail|] eqn:Et; [|discriminate H].
      destruct (IH tail eq_refl) as [IHv IHl].
      split.
      * change (forallb b64_valid (a :: b :: c :: d :: x :: xs))
          with (b64_valid a && (b64_valid b && (b64_valid c && (b64_valid d
                 && forallb b64_valid (x :: xs))))).
        rewrite IHv. unfold b64_valid. rewrite Ea, Eb, Ec, Ed. reflexivity.
      * replace (List.length (a :: b :: c :: d :: x :: xs))
          with (List.length (x :: xs) + 1 * 4)%nat by (cbn [List.length]; lia).
        rewrite Nat.Div0.mod_add. exact IHl.
Qed.

Lemma b64decode_invalid (s : bytes) :
  forallb b64_valid s = false -> b64decode s = None.
Proof.
  intros H. destruct (b64decode s) as [raw|] eqn:E; [|reflexivity].
  apply b64decode_valid in E. destruct E as [E _]. congruence.
Qed.

(* --------------------------------------------------------------------- *)
(** ** Test vectors *)
(* --------------------------------------------------------------------- *)

(** FIPS 180 examples: the digests of "abc" and of the empty message. *)
Example sha1_abc :
  map Z_of_byte (sha1 (encode "abc"))
  = [0xa9; 0x99; 0x3e; 0x36; 0x47; 0x06; 0x81; 0x6a; 0xba; 0x3e;
     0x25; 0x71; 0x78; 0x50; 0xc2; 0x6c; 0x9c; 0xd0; 0xd8; 0x9d].
Proof. vm_compute. reflexivity. Qed.

Example sha1_empty :
  map Z_of_byte (sha1 [])
  = [0xda; 0x39; 0xa3; 0xee; 0x5e; 0x6b; 0x4b; 0x0d; 0x32; 0x55;
     0xbf; 0xef; 0x95; 0x60; 0x18; 0x90; 0xaf; 0xd8; 0x07; 0x09].
Proof. vm_compute. reflexivity. Qed.

(** A message of 56 octets, whose padding takes a second block. *)
Example sha1_two_blocks :
  map Z_of_byte
    (sha1 (encode "abcdbcdecdefdefgefghfghighijhijkijkljklmklmnlmnomnopnopq"))
  = [0x84; 0x98; 0x3e; 0x44; 0x1c; 0x3b; 0xd2; 0x6e; 0xba; 0xae;
     0x4a; 0xa1; 0xf9; 0x51; 0x29; 0xe5; 0xe5; 0x46; 0x70; 0xf1].
Proof. vm_compute. reflexivity. Qed.

(** RFC 4648, section 10. *)
Example b64encode_vectors :
  map (fun s => decode (b64encode (encode s)))
    [""; "f"; "fo"; "foo"; "foob"; "fooba"; "foobar"]
  = [""; "Zg=="; "Zm8="; "Zm9v"; "Zm9vYg=="; "Zm9vYmE="; "Zm9vYmFy"].
Proof. vm_compute. reflexivity. Qed.

(** Strict decoding: wrong padding and foreign characters are errors. *)
Example b64decode_vectors :
  map (fun s => option_map decode (b64decode (encode s)))
    ["Zm9vYg=="; "Zm9vYmE="; "Zm9vYmFy"; "Zm9vYg="; "Zm9vYg"; "Zm9v Yg==";
     "Zm9vYg==="; "Zm9=Yg=="; "===="]
  = [Some "foob"; Some "fooba"; Some "foobar"; None; None; None;
     None; None; None].
Proof. vm_compute. reflexivity. Qed.

(** The list parser on one header value. *)
Example parse_list_vectors :
  map HeadersParsing.parse_list ["Upgrade"; "keep-alive, Upgrade"; " a ,b"]
  = [["Upgrade"]; ["keep-alive"; "Upgrade"]; ["a"; "b"]].
Proof. vm_compute. reflexivity. Qed.

(* --------------------------------------------------------------------- *)
(** ** The header collection *)
(* --------------------------------------------------------------------- *)

Section Filters.

Context {A : Type}.
Implicit Types (p q : A -> bool) (l : list A).

Lemma filter_filter_negb p l :
  filter p (filter (fun x => negb (p x)) l) = [].
Proof.
  induction l as [|x l IH]; cbn [filter]; [reflexivity|].
  destruct (p x) eqn:E; cbn [negb filter]; [assumption|].
  rewrite E. assumption.
Qed.

Lemma filter_filter_implied p q l :
  (forall x, p x = true -> q x = true) ->
  filter p (filter q l) = filter p l.
Proof.
  intros Hpq. induction l as [|x l IH]; cbn [filter]; [reflexivity|].
  destruct (p x) eqn:Ep.
  - rewrite (Hpq x Ep). cbn [filter]. rewrite Ep, IH. reflexivity.
  - destruct (q x); cbn [filter]; rewrite ?Ep; assumption.
Qed.

Lemma filter_none p l :
  filter p l = [] -> filter (fun x => negb (p x)) l = l.
Proof.
  induction l as [|x l IH]; cbn [filter]; [reflexivity|].
  destruct (p x); cbn [negb]; [discriminate|].
  intros H. rewrite (IH H). reflexivity.
Qed.

End Filters.

(** After [headers[key] = value], [key] has the single value [value],
    under any spelling of its name. *)
Lemma get_all_setitem_same (h : Datastructures.Headers) (key key' value : str) :
  lower key = lower key' ->
  Datastructures.get_all (Datastructures.setitem h key value) key' = [value].
Proof.
  intros E. unfold Datastructures.get_all, Datastructures.setitem.
  rewrite filter_app, map_app.
  assert (Hext : forall e, Datastructures.same_name key' e
                           = Datastructures.same_name key e).
  { intros e. unfold Datastructures.same_name. rewrite E. reflexivity. }
  rewrite (filter_ext _ _ Hext (filter _ h)), filter_filter_negb.
  cbn [filter map app]. unfold Datastructures.same_name. cbn [fst snd].
  rewrite E, String.eqb_refl. reflexivity.
Qed.

(** ... and every other header keeps its values. *)
Lemma get_all_setitem_other (h : Datastructures.Headers) (key key' value : str) :
  lower key <> lower key' ->
  Datastructures.get_all (Datastructures.setitem h key value) key'
  = Datastructures.get_all h key'.
Proof.
  intros N. unfold Datastructures.get_all, Datastructures.setitem.
  rewrite filter_app, map_app.
  rewrite filter_filter_implied.
  - cbn [filter]. unfold Datastructures.same_name at 2. cbn [fst].
    destruct (String.eqb_spec (lower key) (lower key')) as [E|_];
      [contradiction|].
    cbn [map]. apply app_nil_r.
  - intros e He. unfold Datastructures.same_name in *.
    apply String.eqb_eq in He.
    destruct (String.eqb_spec (lower (fst e)) (lower key)) as [E|_];
      [congruence|reflexivity].
Qed.

(** On a collection that does not hold [key], setting it adds one entry
    at the end: overwriting has nothing to remove. *)
Lemma setitem_absent (h : Datastructures.Headers) (key value : str) :
  Datastructures.get_all h key = [] ->
  Datastructures.setitem h key value = h ++ [(key, value)].
Proof.
  unfold Datastructures.get_all, Datastructures.setitem. intros H.
  apply map_eq_nil in H. rewrite (filter_none _ _ H). reflexivity.
Qed.

(** [sum(lists, [])] flattens. *)
Lemma fold_left_app_concat {A} (lists : list (list A)) (acc : list A) :
  fold_left (@app A) lists acc = acc ++ List.concat lists.
Proof.
  revert acc. induction lists as [|l lists IH]; intros acc; cbn [fold_left List.concat].
  - symmetry. apply app_nil_r.
  - rewrite IH, app_assoc. reflexivity.
Qed.

Lemma sum_lists_flat_map {A B} (f : A -> list B) (values : list A) :
  sum_lists (map f values) = flat_map f values.
Proof.
  unfold sum_lists. rewrite fold_left_app_concat, flat_map_concat_map.
  reflexivity.
Qed.

(* --------------------------------------------------------------------- *)
(** ** The validators run the steps of the specification *)
(* --------------------------------------------------------------------- *)

Lemma only_websocket_code (tokens : list str) :
  Nat.eqb (List.length tokens) 1
  && String.eqb (lower (nth 0 tokens "")) "websocket"
  = only_websocket tokens.
Proof.
  destruct tokens as [|t [|t' rest]]; reflexivity.
Qed.

Lemma check_request_run (w : world) :
  check_request w = (check_request_spec (headers w), w).
Proof.
  unfold check_request, check_request_spec, bind, try_except, get_all, getitem,
    base64_b64decode, raise, ret, Datastructures.getitem.
  cbn [first_violation request_rules violation reads verdict rule_connection
       rule_upgrade rule_single rule_key_value rule_exact].
  unfold any, has_upgrade.
  destruct (existsb _ _); cbn [negb]; [|reflexivity].
  cbv beta iota. rewrite only_websocket_code.
  destruct (only_websocket _); cbn [negb]; [|reflexivity].
  cbv beta iota.
  destruct (Datastructures.get_all (headers w) "Sec-WebSocket-Key")
    as [|key [|key' keys]]; [reflexivity| |reflexivity].
  destruct (b64decode (encode key)) as [raw|]; [|reflexivity].
  cbn [nth].
  destruct (Nat.eqb (List.length raw) 16); cbn [negb]; [|reflexivity].
  cbv beta iota.
  destruct (Datastructures.get_all (headers w) "Sec-WebSocket-Version")
    as [|v [|v' vs]]; [reflexivity| |reflexivity].
  destruct (String.eqb v "13"); reflexivity.
Qed.

Lemma check_response_run (key : str) (w : world) :
  check_response key w = (check_response_spec key (headers w), w).
Proof.
  unfold check_response, check_response_spec, bind, try_except, get_all,
    getitem, raise, ret, Datastructures.getitem.
  cbn [first_violation response_rules violation reads verdict rule_connection
       rule_upgrade rule_single rule_exact].
  unfold any, has_upgrade.
  destruct (existsb _ _); cbn [negb]; [|reflexivity].
  cbv beta iota. rewrite only_websocket_code.
  destruct (only_websocket _); cbn [negb]; [|reflexivity].
  cbv beta iota.
  destruct (Datastructures.get_all (headers w) "Sec-WebSocket-Accept")
    as [|v [|v' vs]]; [reflexivity| |reflexivity].
  destruct (String.eqb v (accept key)); reflexivity.
Qed.

Lemma result_check_request (w : world) :
  result check_request w = check_request_spec (headers w).
Proof. unfold result. rewrite check_request_run. reflexivity. Qed.

Lemma result_check_response (key : str) (w : world) :
  result (check_response key) w = check_response_spec key (headers w).
Proof. unfold result. rewrite check_response_run. reflexivity. Qed.

(** A step that reads the same values gives the same verdict. *)
Lemma violation_agree (r : rule) (h h' : Datastructures.Headers) :
  Datastructures.get_all h' (reads r) = Datastructures.get_all h (reads r) ->
  violation r h' = violation r h.
Proof. unfold violation. intros ->. reflexivity. Qed.

(** The first violated step decides, whatever the steps after it say. *)
Lemma first_violation_split (before after : list rule) (r : rule) (e : exn)
    (h : Datastructures.Headers) :
  (forall r', In r' before -> violation r' h = None) ->
  violation r h = Some e ->
  first_violation (before ++ r :: after) h = Some e.
Proof.
  intros Hbefore Hr.
  induction before as [|b before IH]; cbn [app first_violation].
  - rewrite Hr. reflexivity.
  - rewrite (Hbefore b (or_introl eq_refl)).
    apply IH. intros r' Hin. apply Hbefore. right. exact Hin.
Qed.

(* --------------------------------------------------------------------- *)
(** ** Fail-fast order of [check_request] *)
(* --------------------------------------------------------------------- *)



(** The steps of [request_rules], unfolded. *)
Lemma check_request_spec_unfold (h : Datastructures.Headers) :
  check_request_spec h =
  if negb (has_upgrade (connection_tokens h))
  then Raises (InvalidUpgrade "Connection" (join ", " (connection_tokens h)))
  else if negb (only_websocket (upgrade_tokens h))
  then Raises (InvalidUpgrade "Upgrade" (join ", " (upgrade_tokens h)))
  else
    match Datastructures.get_all h "Sec-WebSocket-Key" with
    | [] => Raises (InvalidHeader "Sec-WebSocket-Key" None)
    | [key] =>
        match b64decode (encode key) with
        | None => Raises (InvalidHeaderValue "Sec-WebSocket-Key" key)
        | Some raw =>
            if negb (Nat.eqb (List.length raw) 16)
            then Raises (InvalidHeaderValue "Sec-WebSocket-Key" key)
            else
              match Datastructures.get_all h "Sec-WebSocket-Version" with
              | [] => Raises (InvalidHeader "Sec-WebSocket-Version" None)
              | [version] =>
                  if String.eqb version "13" then Returns key
                  else Raises (InvalidHeaderValue "Sec-WebSocket-Version"
                                 version)
              | _ :: _ :: _ =>
                  Raises (InvalidHeader "Sec-WebSocket-Version"
                    (Some "more than one Sec-WebSocket-Version header found"))
              end
        end
    | _ :: _ :: _ =>
        Raises (InvalidHeader "Sec-WebSocket-Key"
                  (Some "more than one Sec-WebSocket-Key header found"))
    end.
Proof.
  unfold check_request_spec, connection_tokens, upgrade_tokens.
  cbn [first_violation request_rules violation reads verdict rule_connection
       rule_upgrade rule_single rule_key_value rule_exact].
  destruct (has_upgrade _); cbn [negb]; [|reflexivity].
  destruct (only_websocket _); cbn [negb]; [|reflexivity].
  destruct (Datastructures.get_all h "Sec-WebSocket-Key")
    as [|key [|key' keys]]; [reflexivity| |reflexivity].
  destruct (b64decode (encode key)) as [raw|]; [|reflexivity].
  destruct (Nat.eqb (List.length raw) 16); cbn [negb nth]; [|reflexivity].
  destruct (Datastructures.get_all h "Sec-WebSocket-Version")
    as [|v [|v' vs]]; [reflexivity| |reflexivity].
  destruct (String.eqb v "13"); reflexivity.
Qed.

Lemma check_response_spec_unfold (key : str) (h : Datastructures.Headers) :
  check_response_spec key h =
  if negb (has_upgrade (connection_tokens h))
  then Raises (InvalidUpgrade "Connection" (join " " (connection_tokens h)))
  else if negb (only_websocket (upgrade_tokens h))
  then Raises (InvalidUpgrade "Upgrade" (join ", " (upgrade_tokens h)))
  else
    match Datastructures.get_all h "Sec-WebSocket-Accept" with
    | [] => Raises (InvalidHeader "Sec-WebSocket-Accept" None)
    | [value] =>
        if String.eqb value (accept key) then Returns tt
        else Raises (InvalidHeaderValue "Sec-WebSocket-Accept" value)
    | _ :: _ :: _ =>
        Raises (InvalidHeader "Sec-WebSocket-Accept"
                  (Some "more than one Sec-WebSocket-Accept header found"))
    end.
Proof.
  unfold check_response_spec, connection_tokens, upgrade_tokens.
  cbn [first_violation response_rules violation reads verdict rule_connection
       rule_upgrade rule_single rule_exact].
  destruct (has_upgrade _); cbn [negb]; [|reflexivity].
  destruct (only_websocket _); cbn [negb]; [|reflexivity].
  destruct (Datastructures.get_all h "Sec-WebSocket-Accept")
    as [|v [|v' vs]]; [reflexivity| |reflexivity].
  destruct (String.eqb v (accept key)); reflexivity.
Qed.

(** Case analysis along the remaining steps of a validator: every test
    and every lookup that the goal still branches on. *)
Ltac step_case :=
  match goal with
  | |- context [if negb ?b then _ else _] => destruct b; cbn [negb]
  | |- context [if ?b then _ else _] => destruct b
  | |- context [match ?o with Some _ => _ | None => _ end] => destruct o
  | |- context [match ?l with [] => _ | _ :: _ => _ end] =>
      destruct l as [|? [|? ?]]
  end.

Ltac by_steps := repeat (step_case; try discriminate; try reflexivity).

(* --------------------------------------------------------------------- *)
(** ** The Connection and Upgrade steps of both validators *)
(* --------------------------------------------------------------------- *)

(** C9.  On every header collection [check_response] and [check_request]
    fail with [InvalidUpgrade] in the same cases and name the same header
    in it: "Connection" when no Connection token lower-cases to
    "upgrade", else "Upgrade" when the Upgrade tokens are not exactly one
    token that lower-cases to "websocket", and neither otherwise. *)
Theorem check_response_mirrors_upgrade_steps :
  forall (w : world) (key : str),
    upgrade_failure (result (check_response key) w)
    = upgrade_failure (result check_request w)
    /\ upgrade_failure (result check_request w)
       = if negb (has_upgrade (connection_tokens (headers w)))
         then Some "Connection"
         else if negb (only_websocket (upgrade_tokens (headers w)))
         then Some "Upgrade"
         else None.
Proof.
  intros w key.
  rewrite result_check_request, result_check_response.
  rewrite check_request_spec_unfold, check_response_spec_unfold.
  destruct (has_upgrade _); cbn [negb]; [|split; reflexivity].
  destruct (only_websocket _); cbn [negb]; [|split; reflexivity].
  split; by_steps.
Qed.

(* --------------------------------------------------------------------- *)
(** ** What the validators leave untouched *)
(* --------------------------------------------------------------------- *)

(** C10.  [check_request] and [check_response] leave the state they run
    in, and so the header collection, exactly as they found it, whether
    they return or raise; [build_request] and [build_response] write to
    it: on an empty collection they leave the headers they set. *)
Theorem validators_do_not_modify_headers :
  forall (w : world) (key : str),
    (final check_request w = w /\ final (check_response key) w = w)
    /\ (headers (final check_request w) = headers w
        /\ headers (final (check_response key) w) = headers w)
    /\ (headers (final build_request (World [] (urandom w) (consumed w)))
        = [("Upgrade", "websocket"); ("Connection", "Upgrade");
           ("Sec-WebSocket-Key",
            decode (b64encode (map (urandom w) (seq (consumed w) 16))));
           ("Sec-WebSocket-Version", "13")]
        /\ headers (final (build_response key)
                      (World [] (urandom w) (consumed w)))
           = [("Upgrade", "websocket"); ("Connection", "Upgrade");
              ("Sec-WebSocket-Accept", accept key)]).
Proof.
  intros w key.
  assert (Hreq : final check_request w = w)
    by (unfold final; rewrite check_request_run; reflexivity).
  assert (Hresp : final (check_response key) w = w)
    by (unfold final; rewrite check_response_run; reflexivity).
  split; [split; assumption|].
  split; [rewrite Hreq, Hresp; split; reflexivity|].
  split; reflexivity.
Qed.

(* --------------------------------------------------------------------- *)
(** ** The steps of [check_request], one by one *)
(* --------------------------------------------------------------------- *)

Lemma has_upgrade_iff (tokens : list str) :
  has_upgrade tokens = true
  <-> exists token, In token tokens /\ lower token = "upgrade".
Proof.
  unfold has_upgrade. rewrite existsb_exists.
  split; intros [token [Hin H]]; exists token; split; try assumption;
    apply String.eqb_eq; assumption.
Qed.

Lemma only_websocket_iff (tokens : list str) :
  only_websocket tokens = true
  <-> exists token, tokens = [token] /\ lower token = "websocket".
Proof.
  split.
  - destruct tokens as [|t [|t' rest]]; cbn [only_websocket];
      intros H; try discriminate H.
    exists t. split; [reflexivity|]. apply String.eqb_eq. exact H.
  - intros [token [-> H]]. cbn [only_websocket]. apply String.eqb_eq. exact H.
Qed.

Lemma not_true_false (b : bool) (P : Prop) :
  (b = true <-> P) -> ~ P -> b = false.
Proof. intros [H _] N. destruct b; [elim N; auto | reflexivity]. Qed.

(** C6.  The Connection step of [check_request].  The tokens are those
    of all occurrences of the header, flattened.  When one of them
    lower-cases to "upgrade" the check does not fail with
    [InvalidUpgrade] for Connection, whatever the other tokens are;
    when none does it raises [InvalidUpgrade] for Connection with the
    tokens joined by ", ".  So "keep-alive, Upgrade" passes the step, and a
    request without a Connection header is rejected. *)
Theorem check_request_connection_step :
  forall w : world,
    let connection := connection_tokens (headers w) in
    connection
    = flat_map parse_connection
        (Datastructures.get_all (headers w) "Connection")
    /\ ((exists token, In token connection /\ lower token = "upgrade") ->
        forall value,
          result check_request w <> Raises (InvalidUpgrade "Connection" value))
    /\ (~ (exists token, In token connection /\ lower token = "upgrade") ->
        result check_request w
        = Raises (InvalidUpgrade "Connection" (join ", " connection)))
    /\ (Datastructures.get_all (headers w) "Connection"
        = ["keep-alive, Upgrade"] ->
        connection = ["keep-alive"; "Upgrade"]
        /\ forall value,
             result check_request w
             <> Raises (InvalidUpgrade "Connection" value))
    /\ (Datastructures.get_all (headers w) "Connection" = [] ->
        result check_request w = Raises (InvalidUpgrade "Connection" "")).
Proof.
  intros w connection.
  assert (Hpass : has_upgrade connection = true ->
                  forall value,
                    result check_request w
                    <> Raises (InvalidUpgrade "Connection" value)).
  { intros H value. rewrite result_check_request, check_request_spec_unfold.
    fold connection. rewrite H. cbn [negb]. by_steps. }
  assert (Hfail : has_upgrade connection = false ->
                  result check_request w
                  = Raises (InvalidUpgrade "Connection"
                              (join ", " connection))).
  { intros H. rewrite result_check_request, check_request_spec_unfold.
    fold connection. rewrite H. reflexivity. }
  split; [apply sum_lists_flat_map|].
  split; [intros H; apply Hpass, has_upgrade_iff, H|].
  split; [intros H; apply Hfail, (not_true_false _ _ (has_upgrade_iff _) H)|].
  split.
  - intros H.
    assert (E : connection = ["keep-alive"; "Upgrade"])
      by (unfold connection, connection_tokens; rewrite H; reflexivity).
    split; [exact E|]. apply Hpass. rewrite E. reflexivity.
  - intros H.
    assert (E : connection = [])
      by (unfold connection, connection_tokens; rewrite H; reflexivity).
    rewrite Hfail; rewrite E; reflexivity.
Qed.

Lemma check_request_connection_step_witness :
  connection_tokens Examples.connection_keep_alive = ["keep-alive"; "Upgrade"]
  /\ result check_request (Examples.world_of Examples.connection_keep_alive)
     = Returns Examples.rfc_key
  /\ result check_request (Examples.world_of Examples.connection_absent)
     = Raises (InvalidUpgrade "Connection" "").
Proof.
  pose proof (check_request_connection_step
                (Examples.world_of Examples.connection_keep_alive)) as Hk.
  pose proof (check_request_connection_step
                (Examples.world_of Examples.connection_absent)) as Ha.
  cbv zeta in Hk, Ha.
  destruct Hk as [_ [_ [_ [Hk _]]]]. destruct Ha as [_ [_ [_ [_ Ha]]]].
  split; [exact (proj1 (Hk eq_refl))|].
  split; [reflexivity|].
  exact (Ha eq_refl).
Defined.

(** C5.  The Upgrade step of [check_request].  The tokens are those of
    all occurrences of the header, flattened.  When they are exactly one
    token that lower-cases to "websocket" the check does not fail with
    [InvalidUpgrade] for Upgrade; otherwise the request is rejected, and
    once the Connection step has passed the failure is [InvalidUpgrade]
    for Upgrade with the tokens joined by ", ".  So "chat" is rejected and
    "WebSocket" passes the step. *)
Theorem check_request_upgrade_step :
  forall w : world,
    let upgrade := upgrade_tokens (headers w) in
    let exactly_websocket :=
      exists token, upgrade = [token] /\ lower token = "websocket" in
    upgrade
    = flat_map parse_upgrade (Datastructures.get_all (headers w) "Upgrade")
    /\ (exactly_websocket ->
        forall value,
          result check_request w <> Raises (InvalidUpgrade "Upgrade" value))
    /\ (~ exactly_websocket ->
        (exists e, result check_request w = Raises e)
        /\ (has_upgrade (connection_tokens (headers w)) = true ->
            result check_request w
            = Raises (InvalidUpgrade "Upgrade" (join ", " upgrade))))
    /\ (Datastructures.get_all (headers w) "Upgrade" = ["chat"] ->
        (exists e, result check_request w = Raises e)
        /\ (has_upgrade (connection_tokens (headers w)) = true ->
            result check_request w = Raises (InvalidUpgrade "Upgrade" "chat")))
    /\ (Datastructures.get_all (headers w) "Upgrade" = ["WebSocket"] ->
        forall value,
          result check_request w <> Raises (InvalidUpgrade "Upgrade" value)).
Proof.
  intros w upgrade exactly_websocket.
  assert (Hpass : only_websocket upgrade = true ->
                  forall value,
                    result check_request w
                    <> Raises (InvalidUpgrade "Upgrade" value)).
  { intros H value. rewrite result_check_request, check_request_spec_unfold.
    fold upgrade. rewrite H. cbn [negb]. by_steps. }
  assert (Hfail : only_websocket upgrade = false ->
                  (exists e, result check_request w = Raises e)
                  /\ (has_upgrade (connection_tokens (headers w)) = true ->
                      result check_request w
                      = Raises (InvalidUpgrade "Upgrade"
                                  (join ", " upgrade)))).
  { intros H. rewrite result_check_request, check_request_spec_unfold.
    fold upgrade. rewrite H. cbn [negb].
    destruct (has_upgrade _); cbn [negb]; split; eauto; discriminate. }
  split; [apply sum_lists_flat_map|].
  split; [intros H; apply Hpass, only_websocket_iff, H|].
  split; [intros H; apply Hfail, (not_true_false _ _ (only_websocket_iff _) H)|].
  split.
  - intros H.
    assert (E : upgrade = ["chat"])
      by (unfold upgrade, upgrade_tokens; rewrite H; reflexivity).
    rewrite E in Hfail. apply Hfail. reflexivity.
  - intros H.
    assert (E : upgrade = ["WebSocket"])
      by (unfold upgrade, upgrade_tokens; rewrite H; reflexivity).
    apply Hpass. rewrite E. reflexivity.
Qed.

Lemma check_request_upgrade_step_witness :
  result check_request (Examples.world_of Examples.upgrade_chat)
  = Raises (InvalidUpgrade "Upgrade" "chat")
  /\ (forall value,
        result check_request (Examples.world_of Examples.upgrade_mixed_case)
        <> Raises (InvalidUpgrade "Upgrade" value))
  /\ result check_request (Examples.world_of Examples.upgrade_mixed_case)
     = Returns Examples.rfc_key.
Proof.
  pose proof (check_request_upgrade_step
                (Examples.world_of Examples.upgrade_chat)) as Hc.
  pose proof (check_request_upgrade_step
                (Examples.world_of Examples.upgrade_mixed_case)) as Hm.
  cbv zeta in Hc, Hm.
  destruct Hc as [_ [_ [_ [Hc _]]]]. destruct Hm as [_ [_ [_ [_ Hm]]]].
  split; [exact (proj2 (Hc eq_refl) eq_refl)|].
  split; [exact (Hm eq_refl)|reflexivity].
Defined.

(** C4.  The key step of [check_request].  Once the Connection and
    Upgrade steps have passed and Sec-WebSocket-Key occurs exactly once,
    the value is base64-decoded with strict validation, and the check
    raises [InvalidHeaderValue] for Sec-WebSocket-Key with that value when
    decoding fails (as it does for every value holding a character outside
    the alphabet and the padding) and when the decoded octets are not
    sixteen; in particular for the base64 of any octets that are not sixteen. *)
Theorem check_request_key_step :
  forall (w : world) (key : str),
    has_upgrade (connection_tokens (headers w)) = true ->
    only_websocket (upgrade_tokens (headers w)) = true ->
    Datastructures.get_all (headers w) "Sec-WebSocket-Key" = [key] ->
    let rejected :=
      result check_request w
      = Raises (InvalidHeaderValue "Sec-WebSocket-Key" key) in
    (b64decode (encode key) = None -> rejected)
    /\ (forallb b64_valid (encode key) = false -> rejected)
    /\ (forall raw : bytes,
          b64decode (encode key) = Some raw ->
          List.length raw <> 16%nat -> rejected)
    /\ (forall raw : bytes,
          key = decode (b64encode raw) ->
          List.length raw <> 16%nat -> rejected).
Proof.
  intros w key Hconnection Hupgrade Hkey rejected.
  assert (Hnone : b64decode (encode key) = None -> rejected).
  { intros H. unfold rejected.
    rewrite result_check_request, check_request_spec_unfold.
    rewrite Hconnection, Hupgrade, Hkey, H. reflexivity. }
  assert (Hlen : forall raw, b64decode (encode key) = Some raw ->
                             List.length raw <> 16%nat -> rejected).
  { intros raw H N. unfold rejected.
    rewrite result_check_request, check_request_spec_unfold.
    rewrite Hconnection, Hupgrade, Hkey, H.
    apply Nat.eqb_neq in N. rewrite N. reflexivity. }
  split; [exact Hnone|].
  split; [intros H; apply Hnone, b64decode_invalid, H|].
  split; [exact Hlen|].
  intros raw -> N. apply (Hlen raw); [apply b64decode_generated|exact N].
Qed.

Lemma check_request_key_step_witness :
  result check_request (Examples.world_of Examples.short_key)
  = Raises (InvalidHeaderValue "Sec-WebSocket-Key" Examples.key_15)
  /\ result check_request (Examples.world_of Examples.long_key)
     = Raises (InvalidHeaderValue "Sec-WebSocket-Key" Examples.key_17)
  /\ result check_request (Examples.world_of Examples.foreign_key)
     = Raises (InvalidHeaderValue "Sec-WebSocket-Key" Examples.key_line_feed).
Proof.
  pose proof (check_request_key_step (Examples.world_of Examples.short_key)
                Examples.key_15 eq_refl eq_refl eq_refl) as H15.
  pose proof (check_request_key_step (Examples.world_of Examples.long_key)
                Examples.key_17 eq_refl eq_refl eq_refl) as H17.
  pose proof (check_request_key_step (Examples.world_of Examples.foreign_key)
                Examples.key_line_feed eq_refl eq_refl eq_refl) as Hlf.
  cbv zeta in H15, H17, Hlf.
  destruct H15 as [_ [_ [H15 _]]]. destruct H17 as [_ [_ [_ H17]]].
  destruct Hlf as [_ [Hlf _]].
  split; [|split].
  - apply (H15 (map byte_of_Z
                  [0; 1; 2; 3; 4; 5; 6; 7; 8; 9; 10; 11; 12; 13; 14]));
      [reflexivity|discriminate].
  - apply (H17 (map byte_of_Z
                  [0; 1; 2; 3; 4; 5; 6; 7; 8; 9; 10; 11; 12; 13; 14; 15; 16]));
      [reflexivity|discriminate].
  - apply Hlf. reflexivity.
Defined.

(** C7.  The version step of [check_request].  A request is accepted
    only if Sec-WebSocket-Version occurs exactly once, with the value
    "13".  Once the earlier steps have passed, the check raises
    [InvalidHeader] when the header is absent, [InvalidHeader] when it
    occurs more than once, whatever the values (two occurrences of "13"
    included), and [InvalidHeaderValue] when its single value is not
    exactly "13"; with the single value "13" it returns the key. *)
Theorem check_request_version_step :
  forall w : world,
    let versions :=
      Datastructures.get_all (headers w) "Sec-WebSocket-Version" in
    (forall key, result check_request w = Returns key -> versions = ["13"])
    /\ forall (key : str) (raw : bytes),
         has_upgrade (connection_tokens (headers w)) = true ->
         only_websocket (upgrade_tokens (headers w)) = true ->
         Datastructures.get_all (headers w) "Sec-WebSocket-Key" = [key] ->
         b64decode (encode key) = Some raw ->
         List.length raw = 16%nat ->
         (versions = [] ->
          result check_request w
          = Raises (InvalidHeader "Sec-WebSocket-Version" None))
         /\ (forall first second others,
               versions = first :: second :: others ->
               result check_request w
               = Raises (InvalidHeader "Sec-WebSocket-Version"
                   (Some "more than one Sec-WebSocket-Version header found")))
         /\ (forall version,
               versions = [version] -> version <> "13" ->
               result check_request w
               = Raises (InvalidHeaderValue "Sec-WebSocket-Version" version))
         /\ (versions = ["13"] -> result check_request w = Returns key).
Proof.
  intros w versions. split.
  - intros key. rewrite result_check_request, check_request_spec_unfold.
    fold versions.
    destruct (has_upgrade _); cbn [negb]; [|discriminate].
    destruct (only_websocket _); cbn [negb]; [|discriminate].
    destruct (Datastructures.get_all (headers w) "Sec-WebSocket-Key")
      as [|k [|k' ks]]; [discriminate| |discriminate].
    destruct (b64decode (encode k)) as [raw|]; [|discriminate].
    destruct (Nat.eqb (List.length raw) 16); cbn [negb]; [|discriminate].
    destruct versions as [|u [|u' us]]; [discriminate| |discriminate].
    destruct (String.eqb_spec u "13") as [->|_]; [reflexivity|discriminate].
  - intros key raw Hconnection Hupgrade Hkey Hraw Hlen.
    assert (E : result check_request w =
                match versions with
                | [] => Raises (InvalidHeader "Sec-WebSocket-Version" None)
                | [version] =>
                    if String.eqb version "13" then Returns key
                    else Raises (InvalidHeaderValue "Sec-WebSocket-Version"
                                   version)
                | _ :: _ :: _ =>
                    Raises (InvalidHeader "Sec-WebSocket-Version"
                      (Some "more than one Sec-WebSocket-Version header found"))
                end).
    { rewrite result_check_request, check_request_spec_unfold.
      rewrite Hconnection, Hupgrade, Hkey, Hraw, Hlen. reflexivity. }
    rewrite E. clear E.
    split; [intros ->; reflexivity|].
    split; [intros first second others ->; reflexivity|].
    split; [|intros ->; reflexivity].
    intros version -> N. apply String.eqb_neq in N. rewrite N. reflexivity.
Qed.

Lemma check_request_version_step_witness :
  result check_request (Examples.world_of Examples.version_absent)
  = Raises (InvalidHeader "Sec-WebSocket-Version" None)
  /\ result check_request (Examples.world_of Examples.version_twice)
     = Raises (InvalidHeader "Sec-WebSocket-Version"
         (Some "more than one Sec-WebSocket-Version header found"))
  /\ result check_request (Examples.world_of Examples.version_8)
     = Raises (InvalidHeaderValue "Sec-WebSocket-Version" "8")
  /\ result check_request (Examples.world_of Examples.valid_request)
     = Returns Examples.rfc_key.
Proof.
  assert (Hraw : b64decode (encode Examples.rfc_key)
                 = Some (encode "the sample nonce")) by reflexivity.
  pose proof (fun h E1 E2 E3 =>
                proj2 (check_request_version_step (Examples.world_of h))
                  Examples.rfc_key (encode "the sample nonce")
                  E1 E2 E3 Hraw eq_refl) as H.
  cbv zeta in H.
  split; [|split; [|split]].
  - apply (H Examples.version_absent eq_refl eq_refl eq_refl). reflexivity.
  - apply (H Examples.version_twice eq_refl eq_refl eq_refl)
      with (first := "13") (second := "13") (others := []). reflexivity.
  - apply (H Examples.version_8 eq_refl eq_refl eq_refl);
      [reflexivity|discriminate].
  - apply (H Examples.valid_request eq_refl eq_refl eq_refl). reflexivity.
Defined.

(* --------------------------------------------------------------------- *)
(** ** Builders followed by validators *)
(* --------------------------------------------------------------------- *)

Ltac other_name := intros Hname; vm_compute in Hname; discriminate Hname.

(** What [build_request] leaves in the collection, whatever it held. *)
Lemma build_request_run (w : world) :
  let key := decode (b64encode (map (urandom w) (seq (consumed w) 16))) in
  let h := headers (final build_request w) in
  result build_request w = Returns key
  /\ Datastructures.get_all h "Connection" = ["Upgrade"]
  /\ Datastructures.get_all h "Upgrade" = ["websocket"]
  /\ Datastructures.get_all h "Sec-WebSocket-Key" = [key]
  /\ Datastructures.get_all h "Sec-WebSocket-Version" = ["13"].
Proof.
  intros key h.
  assert (Eh : h = Datastructures.setitem
                     (Datastructures.setitem
                        (Datastructures.setitem
                           (Datastructures.setitem (headers w)
                              "Upgrade" "websocket")
                           "Connection" "Upgrade")
                        "Sec-WebSocket-Key" key)
                     "Sec-WebSocket-Version" "13") by reflexivity.
  split; [reflexivity|]. rewrite Eh.
  repeat split.
  - rewrite 2 get_all_setitem_other by other_name.
    apply get_all_setitem_same. reflexivity.
  - rewrite 3 get_all_setitem_other by other_name.
    apply get_all_setitem_same. reflexivity.
  - rewrite get_all_setitem_other by other_name.
    apply get_all_setitem_same. reflexivity.
  - apply get_all_setitem_same. reflexivity.
Qed.

(** What [build_response] leaves in the collection, whatever it held. *)
Lemma build_response_run (key : str) (w : world) :
  let h := headers (final (build_response key) w) in
  result (build_response key) w = Returns tt
  /\ Datastructures.get_all h "Connection" = ["Upgrade"]
  /\ Datastructures.get_all h "Upgrade" = ["websocket"]
  /\ Datastructures.get_all h "Sec-WebSocket-Accept" = [accept key].
Proof.
  intros h.
  assert (Eh : h = Datastructures.setitem
                     (Datastructures.setitem
                        (Datastructures.setitem (headers w)
                           "Upgrade" "websocket")
                        "Connection" "Upgrade")
                     "Sec-WebSocket-Accept" (accept key)) by reflexivity.
  split; [reflexivity|]. rewrite Eh.
  repeat split.
  - rewrite get_all_setitem_other by other_name.
    apply get_all_setitem_same. reflexivity.
  - rewrite 2 get_all_setitem_other by other_name.
    apply get_all_setitem_same. reflexivity.
  - apply get_all_setitem_same. reflexivity.
Qed.

Lemma bind_result {A B} (m : M A) (k : A -> M B) (w : world) (a : A) :
  result m w = Returns a -> result (bind m k) w = result (k a) (final m w).
Proof.
  unfold result, final, bind. destruct (m w) as [[a'|e] w']; cbn [fst snd].
  - intros [= ->]. reflexivity.
  - discriminate.
Qed.

(** C3.  [build_request] followed by [check_request] on the same
    collection, whatever it held before: the key is the base64 of the next
    sixteen octets of the random source, [build_request] returns it, and
    [check_request] then succeeds and returns the same string. *)
Theorem build_request_then_check_request :
  forall w : world,
    let raw := map (urandom w) (seq (consumed w) 16) in
    let key := decode (b64encode raw) in
    List.length raw = 16%nat
    /\ result build_request w = Returns key
    /\ result check_request (final build_request w) = Returns key
    /\ result (key1 <- build_request ;; key2 <- check_request ;;
               ret (key1, key2)) w
       = Returns (key, key).
Proof.
  intros w raw key.
  destruct (build_request_run w) as [Hkey [Hc [Hu [Hk Hv]]]].
  fold raw in Hkey, Hk. fold key in Hkey, Hk.
  assert (Hlen : List.length raw = 16%nat)
    by (unfold raw; rewrite length_map, length_seq; reflexivity).
  assert (Hcheck : result check_request (final build_request w) = Returns key).
  { rewrite result_check_request, check_request_spec_unfold.
    unfold connection_tokens, upgrade_tokens. rewrite Hc, Hu, Hk, Hv.
    unfold key at 1. rewrite b64decode_generated, Hlen. reflexivity. }
  repeat split; try assumption.
  rewrite (bind_result _ _ _ _ Hkey), (bind_result _ _ _ _ Hcheck).
  reflexivity.
Qed.

(** C2.  [build_response] on a fresh collection followed by
    [check_response] with the same key succeeds for every key string: the
    Connection and Upgrade headers that were set pass the token steps, and
    the single Sec-WebSocket-Accept value that was set is the accept value
    that [check_response] recomputes. *)
Theorem build_response_then_check_response :
  forall (key : str) (source : nat -> byte) (drawn : nat),
    let fresh := World [] source drawn in
    let h := headers (final (build_response key) fresh) in
    result (build_response key ;; check_response key) fresh = Returns tt
    /\ result (check_response key) (final (build_response key) fresh)
       = Returns tt
    /\ h = [("Upgrade", "websocket"); ("Connection", "Upgrade");
            ("Sec-WebSocket-Accept", accept key)]
    /\ has_upgrade (connection_tokens h) = true
    /\ only_websocket (upgrade_tokens h) = true
    /\ Datastructures.get_all h "Sec-WebSocket-Accept" = [accept key].
Proof.
  intros key source drawn fresh h.
  destruct (build_response_run key fresh) as [Hres [Hc [Hu Ha]]].
  fold h in Hc, Hu, Ha.
  assert (Hcheck : result (check_response key)
                     (final (build_response key) fresh) = Returns tt).
  { rewrite result_check_response, check_response_spec_unfold.
    fold h. unfold connection_tokens, upgrade_tokens. rewrite Hc, Hu, Ha.
    rewrite String.eqb_refl. reflexivity. }
  split; [rewrite (bind_result _ _ _ _ Hres); exact Hcheck|].
  split; [exact Hcheck|].
  split; [reflexivity|].
  unfold connection_tokens, upgrade_tokens. rewrite Hc, Hu.
  split; [reflexivity|]. split; [reflexivity|exact Ha].
Qed.

(* --------------------------------------------------------------------- *)
(** ** The accept value *)
(* --------------------------------------------------------------------- *)

(** C1.  The accept value that [build_response] sets and that
    [check_response] compares with is the base64 of the SHA-1 of the
    octets of the key string followed by the octets of
    "258EAFA5-E914-47DA-95CA-C5AB0DC85B11"; for the key
    "dGhlIHNhbXBsZSBub25jZQ==" it is "s3pPLMBiTxaQ9kYGzzhZRbK+xOo=", and
    that is the Sec-WebSocket-Accept value that [build_response] sets. *)
Theorem accept_value_derivation :
  (forall key : str,
     accept key
     = decode (b64encode
                 (sha1 (encode key
                        ++ encode "258EAFA5-E914-47DA-95CA-C5AB0DC85B11"))))
  /\ (forall (key : str) (w : world),
        Datastructures.get_all (headers (final (build_response key) w))
          "Sec-WebSocket-Accept"
        = [accept key])
  /\ (forall (key : str) (w : world),
        result (check_response key) w = Returns tt ->
        Datastructures.get_all (headers w) "Sec-WebSocket-Accept"
        = [accept key])
  /\ accept "dGhlIHNhbXBsZSBub25jZQ==" = "s3pPLMBiTxaQ9kYGzzhZRbK+xOo="
  /\ (forall w : world,
        Datastructures.get_all
          (headers (final (build_response "dGhlIHNhbXBsZSBub25jZQ==") w))
          "Sec-WebSocket-Accept"
        = ["s3pPLMBiTxaQ9kYGzzhZRbK+xOo="]).
Proof.
  assert (Hrfc : accept "dGhlIHNhbXBsZSBub25jZQ=="
                 = "s3pPLMBiTxaQ9kYGzzhZRbK+xOo=") by (vm_compute; reflexivity).
  split; [|split; [|split; [|split]]].
  - intros key. unfold accept, Utils.accept_key, Utils.GUID.
    rewrite encode_app. reflexivity.
  - intros key w. apply build_response_run.
  - intros key w. rewrite result_check_response, check_response_spec_unfold.
    destruct (has_upgrade _); cbn [negb]; [|discriminate].
    destruct (only_websocket _); cbn [negb]; [|discriminate].
    destruct (Datastructures.get_all (headers w) "Sec-WebSocket-Accept")
      as [|v [|v' vs]]; [discriminate| |discriminate].
    destruct (String.eqb_spec v (accept key)) as [->|_];
      [reflexivity|discriminate].
  - exact Hrfc.
  - intros w. rewrite <- Hrfc. apply build_response_run.
Qed.

Lemma accept_value_derivation_witness :
  Datastructures.get_all
    [("Upgrade", "websocket"); ("Connection", "Upgrade");
     ("Sec-WebSocket-Accept", "s3pPLMBiTxaQ9kYGzzhZRbK+xOo=")]
    "Sec-WebSocket-Accept"
  = [accept "dGhlIHNhbXBsZSBub25jZQ=="].
Proof.
  apply (proj1 (proj2 (proj2 accept_value_derivation))
           "dGhlIHNhbXBsZSBub25jZQ=="
           (Examples.world_of
              [("Upgrade", "websocket"); ("Connection", "Upgrade");
               ("Sec-WebSocket-Accept", "s3pPLMBiTxaQ9kYGzzhZRbK+xOo=")])).
  vm_compute. reflexivity.
Defined.

(* --------------------------------------------------------------------- *)
(** ** The value reported with a Connection failure *)
(* --------------------------------------------------------------------- *)

(** The two validators report the Connection tokens differently: joined
    by ", " in [check_request] (line 63) and by " " in [check_response]
    (line 143). *)
Lemma connection_failure_values :
  forall (w : world) (key : str),
    has_upgrade (connection_tokens (headers w)) = false ->
    result check_request w
    = Raises (InvalidUpgrade "Connection"
                (join ", " (connection_tokens (headers w))))
    /\ result (check_response key) w
       = Raises (InvalidUpgrade "Connection"
                   (join " " (connection_tokens (headers w)))).
Proof.
  intros w key H.
  rewrite result_check_request, result_check_response.
  rewrite check_request_spec_unfold, check_response_spec_unfold, H.
  split; reflexivity.
Qed.

Lemma connection_failure_values_witness :
  result check_request
    (Examples.world_of [("Connection", "keep-alive, close")])
  = Raises (InvalidUpgrade "Connection" "keep-alive, close")
  /\ result (check_response Examples.rfc_key)
       (Examples.world_of [("Connection", "keep-alive, close")])
     = Raises (InvalidUpgrade "Connection" "keep-alive close").
Proof.
  exact (connection_failure_values
           (Examples.world_of [("Connection", "keep-alive, close")])
           Examples.rfc_key eq_refl).
Defined.

(* ===================================================================== *)
(** * Further properties of the four functions *)
(* ===================================================================== *)

(* --------------------------------------------------------------------- *)
(** ** When the validators accept *)
(* --------------------------------------------------------------------- *)

(** X4.  [check_request] returns [key] exactly when some Connection
    token lower-cases to "upgrade", the Upgrade tokens are one token that
    lower-cases to "websocket", Sec-WebSocket-Key occurs once with the
    value [key], which decodes strictly to sixteen octets, and
    Sec-WebSocket-Version occurs once with the value "13".  The key is
    returned as it stands in the header. *)
Theorem check_request_accepts_iff :
  forall (w : world) (key : str),
    result check_request w = Returns key
    <-> (has_upgrade (connection_tokens (headers w)) = true
         /\ only_websocket (upgrade_tokens (headers w)) = true
         /\ Datastructures.get_all (headers w) "Sec-WebSocket-Key" = [key]
         /\ (exists raw, b64decode (encode key) = Some raw
                         /\ List.length raw = 16%nat)
         /\ Datastructures.get_all (headers w) "Sec-WebSocket-Version"
            = ["13"]).
Proof.
  intros w key. rewrite result_check_request, check_request_spec_unfold.
  split.
  - destruct (has_upgrade _); cbn [negb]; [|discriminate].
    destruct (only_websocket _); cbn [negb]; [|discriminate].
    destruct (Datastructures.get_all (headers w) "Sec-WebSocket-Key")
      as [|k [|k' ks]]; [discriminate| |discriminate].
    destruct (b64decode (encode k)) as [raw|] eqn:Eraw; [|discriminate].
    destruct (Nat.eqb_spec (List.length raw) 16) as [Hlen|_]; cbn [negb];
      [|discriminate].
    destruct (Datastructures.get_all (headers w) "Sec-WebSocket-Version")
      as [|v [|v' vs]]; [discriminate| |discriminate].
    destruct (String.eqb_spec v "13") as [->|_]; [|discriminate].
    intros [= <-]. rewrite Eraw. repeat split. exists raw. split; auto.
  - intros [Hc [Hu [Hk [[raw [Hraw Hlen]] Hv]]]].
    rewrite Hc, Hu, Hk, Hraw, Hlen, Hv. reflexivity.
Qed.

(** X5.  [check_response] succeeds exactly when some Connection token
    lower-cases to "upgrade", the Upgrade tokens are one token that
    lower-cases to "websocket", and Sec-WebSocket-Accept occurs once with
    exactly the accept value of the key. *)
Theorem check_response_accepts_iff :
  forall (w : world) (key : str),
    result (check_response key) w = Returns tt
    <-> (has_upgrade (connection_tokens (headers w)) = true
         /\ only_websocket (upgrade_tokens (headers w)) = true
         /\ Datastructures.get_all (headers w) "Sec-WebSocket-Accept"
            = [accept key]).
Proof.
  intros w key. rewrite result_check_response, check_response_spec_unfold.
  split.
  - destruct (has_upgrade _); cbn [negb]; [|discriminate].
    destruct (only_websocket _); cbn [negb]; [|discriminate].
    destruct (Datastructures.get_all (headers w) "Sec-WebSocket-Accept")
      as [|v [|v' vs]]; [discriminate| |discriminate].
    destruct (String.eqb_spec v (accept key)) as [->|_]; [|discriminate].
    intros _. repeat split.
  - intros [Hc [Hu Ha]]. rewrite Hc, Hu, Ha, String.eqb_refl. reflexivity.
Qed.

(* --------------------------------------------------------------------- *)
(** ** The failures of the steps that the claims leave out *)
(* --------------------------------------------------------------------- *)

(** X3.  The key-presence step of [check_request] (lines 75-82).  Once
    the Connection and Upgrade steps have passed, a request without
    Sec-WebSocket-Key raises [InvalidHeader] with the name alone, and one
    with more than one occurrence raises [InvalidHeader] with the message
    of line 81, whatever the values are and whatever the version header
    says. *)
Theorem check_request_key_presence_step :
  forall w : world,
    has_upgrade (connection_tokens (headers w)) = true ->
    only_websocket (upgrade_tokens (headers w)) = true ->
    let keys := Datastructures.get_all (headers w) "Sec-WebSocket-Key" in
    (keys = [] ->
     result check_request w = Raises (InvalidHeader "Sec-WebSocket-Key" None))
    /\ (forall first second others,
          keys = first :: second :: others ->
          result check_request w
          = Raises (InvalidHeader "Sec-WebSocket-Key"
              (Some "more than one Sec-WebSocket-Key header found"))).
Proof.
  intros w Hc Hu keys.
  split; [intros E | intros first second others E];
    rewrite result_check_request, check_request_spec_unfold, Hc, Hu;
    fold keys; rewrite E; reflexivity.
Qed.

Lemma check_request_key_presence_step_witness :
  result check_request (Examples.world_of key_absent)
  = Raises (InvalidHeader "Sec-WebSocket-Key" None)
  /\ result check_request (Examples.world_of key_twice)
     = Raises (InvalidHeader "Sec-WebSocket-Key"
         (Some "more than one Sec-WebSocket-Key header found")).
Proof.
  split.
  - apply (check_request_key_presence_step (Examples.world_of key_absent)
             eq_refl eq_refl). reflexivity.
  - apply (proj2 (check_request_key_presence_step
                    (Examples.world_of key_twice) eq_refl eq_refl)
             "dGhlIHNhbXBsZSBub25jZQ==" "dGhlIHNhbXBsZSBub25jZQ==" []).
    reflexivity.
Defined.

(** X2.  The accept step of [check_response] (lines 155-165).  Once the
    Connection and Upgrade steps have passed, a response without
    Sec-WebSocket-Accept raises [InvalidHeader] with the name alone, one
    with more than one occurrence raises [InvalidHeader] with the message
    of line 161 (even when every occurrence is the right value), and one
    whose single value differs from the accept value of the key raises
    [InvalidHeaderValue] with that value. *)
Theorem check_response_accept_step :
  forall (w : world) (key : str),
    has_upgrade (connection_tokens (headers w)) = true ->
    only_websocket (upgrade_tokens (headers w)) = true ->
    let accepts :=
      Datastructures.get_all (headers w) "Sec-WebSocket-Accept" in
    (accepts = [] ->
     result (check_response key) w
     = Raises (InvalidHeader "Sec-WebSocket-Accept" None))
    /\ (forall first second others,
          accepts = first :: second :: others ->
          result (check_response key) w
          = Raises (InvalidHeader "Sec-WebSocket-Accept"
              (Some "more than one Sec-WebSocket-Accept header found")))
    /\ (forall value,
          accepts = [value] -> value <> accept key ->
          result (check_response key) w
          = Raises (InvalidHeaderValue "Sec-WebSocket-Accept" value)).
Proof.
  intros w key Hc Hu accepts.
  split; [|split].
  - intros E. rewrite result_check_response, check_response_spec_unfold.
    rewrite Hc, Hu. fold accepts. rewrite E. reflexivity.
  - intros first second others E.
    rewrite result_check_response, check_response_spec_unfold.
    rewrite Hc, Hu. fold accepts. rewrite E. reflexivity.
  - intros value E N.
    rewrite result_check_response, check_response_spec_unfold.
    rewrite Hc, Hu. fold accepts. rewrite E.
    apply String.eqb_neq in N. rewrite N. reflexivity.
Qed.

Lemma check_response_accept_step_witness :
  result (check_response Examples.rfc_key) (Examples.world_of (response []))
  = Raises (InvalidHeader "Sec-WebSocket-Accept" None)
  /\ result (check_response Examples.rfc_key)
       (Examples.world_of
          (response [Examples.rfc_accept; Examples.rfc_accept]))
     = Raises (InvalidHeader "Sec-WebSocket-Accept"
         (Some "more than one Sec-WebSocket-Accept header found"))
  /\ result (check_response Examples.rfc_key)
       (Examples.world_of (response ["s3pPLMBiTxaQ9kYGzzhZRbK+xOO="]))
     = Raises (InvalidHeaderValue "Sec-WebSocket-Accept"
                 "s3pPLMBiTxaQ9kYGzzhZRbK+xOO=").
Proof.
  split; [|split].
  - apply (check_response_accept_step
             (Examples.world_of (response [])) Examples.rfc_key
             eq_refl eq_refl).
    reflexivity.
  - apply (proj1 (proj2 (check_response_accept_step
                           (Examples.world_of
                              (response [Examples.rfc_accept;
                                         Examples.rfc_accept]))
                           Examples.rfc_key eq_refl eq_refl))
             Examples.rfc_accept Examples.rfc_accept []).
    reflexivity.
  - apply (proj2 (proj2 (check_response_accept_step
                           (Examples.world_of
                              (response ["s3pPLMBiTxaQ9kYGzzhZRbK+xOO="]))
                           Examples.rfc_key eq_refl eq_refl))).
    + reflexivity.
    + vm_compute. discriminate.
Defined.

(* --------------------------------------------------------------------- *)
(** ** What the validators never raise *)
(* --------------------------------------------------------------------- *)



(* --------------------------------------------------------------------- *)
(** ** Which headers the validators depend on *)
(* --------------------------------------------------------------------- *)

(** X7.  The result of [check_request] depends only on the values of
    Connection, Upgrade, Sec-WebSocket-Key and Sec-WebSocket-Version, and
    that of [check_response] only on the key and on the values of
    Connection, Upgrade and Sec-WebSocket-Accept: two collections that
    hold the same values for these headers get the same result, whatever
    else they hold (Host, Origin, ...) and in whatever order the headers
    of different names stand. *)
Theorem validators_read_only_their_headers :
  forall (w w' : world) (key : str),
    (same_values request_headers (headers w) (headers w') ->
     result check_request w' = result check_request w)
    /\ (same_values response_headers (headers w) (headers w') ->
        result (check_response key) w' = result (check_response key) w).
Proof.
  intros w w' key. split; intros H.
  - rewrite !result_check_request, !check_request_spec_unfold.
    unfold connection_tokens, upgrade_tokens.
    rewrite (H "Connection"), (H "Upgrade"), (H "Sec-WebSocket-Key"),
      (H "Sec-WebSocket-Version") by (cbn; tauto).
    reflexivity.
  - rewrite !result_check_response, !check_response_spec_unfold.
    unfold connection_tokens, upgrade_tokens.
    rewrite (H "Connection"), (H "Upgrade"), (H "Sec-WebSocket-Accept")
      by (cbn; tauto).
    reflexivity.
Qed.

Lemma validators_read_only_their_headers_witness :
  result check_request (Examples.world_of browser_request)
  = result check_request (Examples.world_of bare_request)
  /\ result (check_response Examples.rfc_key)
       (Examples.world_of (server_headers ++ response [Examples.rfc_accept]))
     = result (check_response Examples.rfc_key)
         (Examples.world_of (response [Examples.rfc_accept])).
Proof.
  split.
  - apply (proj1 (validators_read_only_their_headers
                    (Examples.world_of bare_request)
                    (Examples.world_of browser_request) Examples.rfc_key)).
    intros name [<-|[<-|[<-|[<-|[]]]]]; reflexivity.
  - apply (proj2 (validators_read_only_their_headers
                    (Examples.world_of (response [Examples.rfc_accept]))
                    (Examples.world_of
                       (server_headers ++ response [Examples.rfc_accept]))
                    Examples.rfc_key)).
    intros name [<-|[<-|[<-|[]]]]; reflexivity.
Defined.

(* --------------------------------------------------------------------- *)
(** ** Fail-fast order of [check_response] *)
(* --------------------------------------------------------------------- *)

(** X8.  [check_response] is fail-fast in the order Connection tokens,
    Upgrade tokens, Sec-WebSocket-Accept presence, Sec-WebSocket-Accept
    value: its result is the failure of the first step of
    [response_rules] that is violated (success when none is), and once a
    step is violated the result is that step's failure on every
    collection that holds the same values for the headers read up to that
    step. *)
Theorem check_response_fail_fast :
  forall (w : world) (key : str),
    map reads (response_rules key)
    = ["Connection"; "Upgrade"; "Sec-WebSocket-Accept";
       "Sec-WebSocket-Accept"]
    /\ result (check_response key) w = check_response_spec key (headers w)
    /\ forall (before after : list rule) (r : rule) (e : exn),
         response_rules key = before ++ r :: after ->
         (forall r', In r' before -> violation r' (headers w) = None) ->
         violation r (headers w) = Some e ->
         result (check_response key) w = Raises e
         /\ forall w' : world,
              agree_on (before ++ [r]) (headers w) (headers w') ->
              result (check_response key) w' = Raises e.
Proof.
  intros w key. split; [reflexivity|].
  split; [apply result_check_response|].
  intros before after r e Hsplit Hbefore Hr.
  split.
  - rewrite result_check_response. unfold check_response_spec.
    rewrite Hsplit, (first_violation_split before after r e) by assumption.
    reflexivity.
  - intros w' Hagree.
    rewrite result_check_response. unfold check_response_spec.
    rewrite Hsplit, (first_violation_split before after r e); [reflexivity| |].
    + intros r' Hin. rewrite <- (Hbefore r' Hin).
      apply violation_agree, Hagree, in_or_app. left. exact Hin.
    + rewrite <- Hr.
      apply violation_agree, Hagree, in_or_app. right. left. reflexivity.
Qed.

Lemma check_response_fail_fast_witness :
  result (check_response Examples.rfc_key)
    (Examples.world_of [("Connection", "close"); ("Upgrade", "h2c")])
  = Raises (InvalidUpgrade "Connection" "close")
  /\ result (check_response Examples.rfc_key)
       (Examples.world_of
          [("Connection", "close"); ("Upgrade", "websocket");
           ("Sec-WebSocket-Accept", Examples.rfc_accept)])
     = Raises (InvalidUpgrade "Connection" "close").
Proof.
  destruct (proj2 (proj2 (check_response_fail_fast
                            (Examples.world_of
                               [("Connection", "close"); ("Upgrade", "h2c")])
                            Examples.rfc_key))
              []
              [rule_upgrade; rule_single "Sec-WebSocket-Accept";
               rule_exact "Sec-WebSocket-Accept" (accept Examples.rfc_key)]
              (rule_connection " ") (InvalidUpgrade "Connection" "close")
              eq_refl (fun r' (Hin : In r' []) => match Hin with end) eq_refl)
    as [Hhere Helsewhere].
  split; [exact Hhere|].
  apply Helsewhere. intros r [<-|[]]. reflexivity.
Defined.

(* --------------------------------------------------------------------- *)
(** ** Headers that occur more than once *)
(* --------------------------------------------------------------------- *)

Lemma has_upgrade_occurrences (values : list str) :
  has_upgrade (sum_lists (map parse_connection values)) = true
  <-> exists value token,
        In value values /\ In token (parse_connection value)
        /\ lower token = "upgrade".
Proof.
  rewrite sum_lists_flat_map, has_upgrade_iff. split.
  - intros [token [Hin H]]. apply in_flat_map in Hin.
    destruct Hin as [value [Hv Ht]]. exists value, token. auto.
  - intros [value [token [Hv [Ht H]]]]. exists token. split; [|exact H].
    apply in_flat_map. exists value. auto.
Qed.

(** X9.  Connection may come in several occurrences: both validators
    pass the Connection step exactly when some occurrence holds a token
    that lower-cases to "upgrade".  Upgrade may not be split: when two
    occurrences each hold a token, the Upgrade tokens are more than one
    and [check_request] rejects the request, even if every token is
    "websocket". *)
Theorem repeated_connection_and_upgrade_headers :
  forall (w : world) (key : str),
    let some_occurrence_upgrades :=
      exists value token,
        In value (Datastructures.get_all (headers w) "Connection")
        /\ In token (parse_connection value) /\ lower token = "upgrade" in
    ((forall value,
        result check_request w <> Raises (InvalidUpgrade "Connection" value))
     <-> some_occurrence_upgrades)
    /\ ((forall value,
           result (check_response key) w
           <> Raises (InvalidUpgrade "Connection" value))
        <-> some_occurrence_upgrades)
    /\ (forall first second others,
          Datastructures.get_all (headers w) "Upgrade"
          = first :: second :: others ->
          parse_upgrade first <> [] -> parse_upgrade second <> [] ->
          exists e, result check_request w = Raises e
                    /\ is_invalid_handshake e = true).
Proof.
  intros w key some.
  assert (Hsome : has_upgrade (connection_tokens (headers w)) = true <-> some)
    by apply has_upgrade_occurrences.
  split; [|split].
  - rewrite <- Hsome, result_check_request, check_request_spec_unfold.
    destruct (has_upgrade _); cbn [negb].
    + split; [reflexivity|]. intros _ value. by_steps.
    + split; [|discriminate]. intros H. elim (H _ eq_refl).
  - rewrite <- Hsome, result_check_response, check_response_spec_unfold.
    destruct (has_upgrade _); cbn [negb].
    + split; [reflexivity|]. intros _ value. by_steps.
    + split; [|discriminate]. intros H. elim (H _ eq_refl).
  - intros first second others E N1 N2.
    assert (Hu : only_websocket (upgrade_tokens (headers w)) = false).
    { unfold upgrade_tokens. rewrite E, sum_lists_flat_map.
      cbn [flat_map].
      destruct (parse_upgrade first) as [|t1 l1]; [contradiction|].
      destruct (parse_upgrade second) as [|t2 l2]; [contradiction|].
      destruct l1; reflexivity. }
    rewrite result_check_request, check_request_spec_unfold, Hu.
    destruct (has_upgrade _); cbn [negb]; eexists; split; reflexivity.
Qed.

Lemma repeated_connection_and_upgrade_headers_witness :
  (exists e,
     result check_request (Examples.world_of upgrade_twice) = Raises e
     /\ is_invalid_handshake e = true)
  /\ result check_request (Examples.world_of upgrade_twice)
     = Raises (InvalidUpgrade "Upgrade" "websocket, websocket")
  /\ result check_request (Examples.world_of browser_request)
     = Returns Examples.rfc_key.
Proof.
  split; [|split; reflexivity].
  apply (proj2 (proj2 (repeated_connection_and_upgrade_headers
                         (Examples.world_of upgrade_twice) Examples.rfc_key))
           "websocket" "websocket" []).
  - reflexivity.
  - discriminate.
  - discriminate.
Defined.

(* --------------------------------------------------------------------- *)
(** ** What the builders write *)
(* --------------------------------------------------------------------- *)

Lemma get_all_app (h h' : Datastructures.Headers) (name : str) :
  Datastructures.get_all (h ++ h') name
  = Datastructures.get_all h name ++ Datastructures.get_all h' name.
Proof.
  unfold Datastructures.get_all. rewrite filter_app, map_app. reflexivity.
Qed.

Lemma setitem_absent_app (h added : Datastructures.Headers) (key value : str) :
  Datastructures.get_all h key = [] ->
  Datastructures.get_all added key = [] ->
  Datastructures.setitem (h ++ added) key value
  = h ++ added ++ [(key, value)].
Proof.
  intros Hh Hadded. rewrite setitem_absent, <- app_assoc; [reflexivity|].
  rewrite get_all_app, Hh, Hadded. reflexivity.
Qed.

(** X10.  What the builders write.  A header that is, up to case, none
    of those a builder sets keeps its values; and on a collection that
    holds none of them yet, [build_request] and [build_response] add
    their headers at the end, in the order of the assignments (lines
    31-34 and 117-119), and change nothing else. *)
Theorem builders_write_only_their_headers :
  forall (w : world) (key : str),
    (forall name,
       other_header request_headers name ->
       Datastructures.get_all (headers (final build_request w)) name
       = Datastructures.get_all (headers w) name)
    /\ (forall name,
          other_header response_headers name ->
          Datastructures.get_all (headers (final (build_response key) w)) name
          = Datastructures.get_all (headers w) name)
    /\ (holds_none request_headers (headers w) ->
        forall generated, result build_request w = Returns generated ->
        headers (final build_request w)
        = headers w
          ++ [("Upgrade", "websocket"); ("Connection", "Upgrade");
              ("Sec-WebSocket-Key", generated);
              ("Sec-WebSocket-Version", "13")])
    /\ (holds_none response_headers (headers w) ->
        headers (final (build_response key) w)
        = headers w
          ++ [("Upgrade", "websocket"); ("Connection", "Upgrade");
              ("Sec-WebSocket-Accept", accept key)]).
Proof.
  intros w key.
  set (generated := decode (b64encode (map (urandom w) (seq (consumed w) 16)))).
  assert (Ereq : headers (final build_request w)
                 = Datastructures.setitem
                     (Datastructures.setitem
                        (Datastructures.setitem
                           (Datastructures.setitem (headers w)
                              "Upgrade" "websocket")
                           "Connection" "Upgrade")
                        "Sec-WebSocket-Key" generated)
                     "Sec-WebSocket-Version" "13") by reflexivity.
  assert (Eresp : headers (final (build_response key) w)
                  = Datastructures.setitem
                      (Datastructures.setitem
                         (Datastructures.setitem (headers w)
                            "Upgrade" "websocket")
                         "Connection" "Upgrade")
                      "Sec-WebSocket-Accept" (accept key)) by reflexivity.
  split; [|split; [|split]].
  - intros name H. rewrite Ereq.
    rewrite !get_all_setitem_other by (apply H; cbn; tauto). reflexivity.
  - intros name H. rewrite Eresp.
    rewrite !get_all_setitem_other by (apply H; cbn; tauto). reflexivity.
  - intros H key' [= <-]. rewrite Ereq.
    rewrite (setitem_absent (headers w)) by (apply H; cbn; tauto).
    rewrite (setitem_absent_app (headers w) [_])
      by (apply H || reflexivity; cbn; tauto).
    cbn [app].
    rewrite (setitem_absent_app (headers w) [_; _])
      by (apply H || reflexivity; cbn; tauto).
    cbn [app].
    rewrite (setitem_absent_app (headers w) [_; _; _])
      by (apply H || reflexivity; cbn; tauto).
    reflexivity.
  - intros H. rewrite Eresp.
    rewrite (setitem_absent (headers w)) by (apply H; cbn; tauto).
    rewrite (setitem_absent_app (headers w) [_])
      by (apply H || reflexivity; cbn; tauto).
    cbn [app].
    rewrite (setitem_absent_app (headers w) [_; _])
      by (apply H || reflexivity; cbn; tauto).
    reflexivity.
Qed.

Lemma builders_write_only_their_headers_witness :
  Datastructures.get_all
    (headers (final build_request (Examples.world_of Examples.valid_request)))
    "Host"
  = ["server.example.com"]
  /\ headers (final (build_response Examples.rfc_key)
                (Examples.world_of server_headers))
     = server_headers
       ++ [("Upgrade", "websocket"); ("Connection", "Upgrade");
           ("Sec-WebSocket-Accept", accept Examples.rfc_key)].
Proof.
  pose proof (builders_write_only_their_headers
                (Examples.world_of Examples.valid_request) Examples.rfc_key)
    as [Hreq _].
  pose proof (builders_write_only_their_headers
                (Examples.world_of server_headers) Examples.rfc_key)
    as [_ [_ [_ Hresp]]].
  split.
  - rewrite (Hreq "Host"); [reflexivity|].
    intros set [<-|[<-|[<-|[<-|[]]]]]; vm_compute; discriminate.
  - apply Hresp. intros name [<-|[<-|[<-|[]]]]; reflexivity.
Defined.

(* --------------------------------------------------------------------- *)
(** ** The four functions in sequence *)
(* --------------------------------------------------------------------- *)

Lemma check_request_of_values (w : world) (key : str) (raw : bytes) :
  Datastructures.get_all (headers w) "Connection" = ["Upgrade"] ->
  Datastructures.get_all (headers w) "Upgrade" = ["websocket"] ->
  Datastructures.get_all (headers w) "Sec-WebSocket-Key" = [key] ->
  Datastructures.get_all (headers w) "Sec-WebSocket-Version" = ["13"] ->
  b64decode (encode key) = Some raw -> List.length raw = 16%nat ->
  result check_request w = Returns key.
Proof.
  intros Hc Hu Hk Hv Hraw Hlen.
  rewrite result_check_request, check_request_spec_unfold.
  unfold connection_tokens, upgrade_tokens.
  rewrite Hc, Hu, Hk, Hv, Hraw, Hlen. reflexivity.
Qed.

Lemma check_response_of_values (w : world) (key value : str) :
  Datastructures.get_all (headers w) "Connection" = ["Upgrade"] ->
  Datastructures.get_all (headers w) "Upgrade" = ["websocket"] ->
  Datastructures.get_all (headers w) "Sec-WebSocket-Accept" = [value] ->
  result (check_response key) w
  = if String.eqb value (accept key) then Returns tt
    else Raises (InvalidHeaderValue "Sec-WebSocket-Accept" value).
Proof.
  intros Hc Hu Ha.
  rewrite result_check_response, check_response_spec_unfold.
  unfold connection_tokens, upgrade_tokens.
  rewrite Hc, Hu, Ha. reflexivity.
Qed.

(** X11.  The opening handshake end to end.  The client calls
    [build_request] on headers that hold none of the handshake headers
    yet, and the server receives a collection with the same values for
    them; then [check_request] returns the client's key.  The server calls
    [build_response] with that key on headers that hold none of the
    response headers yet, and the client receives a collection with the
    same values for them; then [check_response] with the client's key
    succeeds. *)
Theorem opening_handshake_succeeds :
  forall (client server received answered : world) (key : str),
    holds_none request_headers (headers client) ->
    holds_none response_headers (headers server) ->
    result build_request client = Returns key ->
    same_values request_headers
      (headers (final build_request client)) (headers received) ->
    result check_request received = Returns key
    /\ result (build_response key) server = Returns tt
    /\ (same_values response_headers
          (headers (final (build_response key) server)) (headers answered) ->
        result (check_response key) answered = Returns tt).
Proof.
  intros client server received answered key _ _ Hkey Hreceived.
  destruct (build_request_run client) as [Hkey' [Hc [Hu [Hk Hv]]]].
  set (raw := map (urandom client) (seq (consumed client) 16)) in *.
  assert (Egenerated : b64decode (encode (decode (b64encode raw))) = Some raw)
    by apply b64decode_generated.
  remember (decode (b64encode raw)) as generated eqn:Heq. clear Heq.
  rewrite Hkey in Hkey'. injection Hkey' as <-.
  split; [|split].
  - apply (check_request_of_values received key raw);
      try (rewrite Hreceived by (cbn; tauto); assumption).
    + exact Egenerated.
    + unfold raw. rewrite length_map, length_seq. reflexivity.
  - reflexivity.
  - intros Hanswered.
    destruct (build_response_run key server) as [_ [Hc' [Hu' Ha']]].
    rewrite (check_response_of_values answered key (accept key));
      try (rewrite Hanswered by (cbn; tauto); assumption).
    rewrite String.eqb_refl. reflexivity.
Qed.

Lemma opening_handshake_succeeds_witness :
  result check_request
    (Examples.world_of
       [("Sec-WebSocket-Version", "13"); ("Origin", "http://example.com");
        ("sec-websocket-key", "AAECAwQFBgcICQoLDA0ODw==");
        ("connection", "Upgrade"); ("upgrade", "websocket")])
  = Returns "AAECAwQFBgcICQoLDA0ODw=="
  /\ result (check_response "AAECAwQFBgcICQoLDA0ODw==")
       (final (build_response "AAECAwQFBgcICQoLDA0ODw==")
          (Examples.world_of server_headers))
     = Returns tt.
Proof.
  destruct (opening_handshake_succeeds
              (Examples.world_of [("Host", "server.example.com")])
              (Examples.world_of server_headers)
              (Examples.world_of
                 [("Sec-WebSocket-Version", "13");
                  ("Origin", "http://example.com");
                  ("sec-websocket-key", "AAECAwQFBgcICQoLDA0ODw==");
                  ("connection", "Upgrade"); ("upgrade", "websocket")])
              (final (build_response "AAECAwQFBgcICQoLDA0ODw==")
                 (Examples.world_of server_headers))
              "AAECAwQFBgcICQoLDA0ODw==")
    as [Hrequest [_ Hresponse]].
  - intros name [<-|[<-|[<-|[<-|[]]]]]; reflexivity.
  - intros name [<-|[<-|[<-|[]]]]; reflexivity.
  - reflexivity.
  - intros name [<-|[<-|[<-|[<-|[]]]]]; reflexivity.
  - split; [exact Hrequest|]. apply Hresponse. intros name _. reflexivity.
Defined.

(** X12.  A response answers one key only.  When the client receives
    the headers that [build_response] made for [key] and checks them with
    a key whose accept value is different, [check_response] raises
    [InvalidHeaderValue] for Sec-WebSocket-Accept, carrying the value it
    received. *)
Theorem check_response_rejects_other_key :
  forall (server answered : world) (key other : str),
    holds_none response_headers (headers server) ->
    same_values response_headers
      (headers (final (build_response key) server)) (headers answered) ->
    accept key <> accept other ->
    result (check_response other) answered
    = Raises (InvalidHeaderValue "Sec-WebSocket-Accept" (accept key)).
Proof.
  intros server answered key other _ Hanswered N.
  destruct (build_response_run key server) as [_ [Hc [Hu Ha]]].
  rewrite (check_response_of_values answered other (accept key));
    try (rewrite Hanswered by (cbn; tauto); assumption).
  apply String.eqb_neq in N. rewrite N. reflexivity.
Qed.

Lemma check_response_rejects_other_key_witness :
  result (check_response "AAECAwQFBgcICQoLDA0ODw==")
    (final (build_response Examples.rfc_key)
       (Examples.world_of server_headers))
  = Raises (InvalidHeaderValue "Sec-WebSocket-Accept" Examples.rfc_accept).
Proof.
  assert (E : accept Examples.rfc_key = Examples.rfc_accept)
    by (vm_compute; reflexivity).
  rewrite <- E.
  apply (check_response_rejects_other_key
           (Examples.world_of server_headers)
           (final (build_response Examples.rfc_key)
              (Examples.world_of server_headers))
           Examples.rfc_key "AAECAwQFBgcICQoLDA0ODw==").
  - intros name [<-|[<-|[<-|[]]]]; reflexivity.
  - intros name _. reflexivity.
  - vm_compute. discriminate.
Defined.

(* --------------------------------------------------------------------- *)
(** ** The keys that [check_request] accepts *)
(* --------------------------------------------------------------------- *)

(** Strict decoding gives three octets for each group of four characters,
    less the padding; when one octet is left over, the input ends in two
    padding characters. *)
Lemma b64decode_shape (s raw : bytes) :
  b64decode s = Some raw ->
  List.length s = (4 * ((List.length raw + 2) / 3))%nat
  /\ ((List.length raw mod 3 = 1)%nat ->
      exists front c1 c2, s = front ++ [c1; c2; b64_pad; b64_pad]).
Proof.
  revert raw.
  induction s as [|a|a b|a b c|a b c d rest IH] using bytes_ind4;
    intros raw H; try discriminate H.
  - injection H as <-. split; [reflexivity|]. cbn. discriminate.
  - destruct rest as [|x xs].
    + rewrite b64decode_four in H. unfold b64decode_last in H.
      destruct (b64_index a); [|discriminate H].
      destruct (b64_index b); [|discriminate H].
      destruct (Byte.eqb c b64_pad) eqn:Ec.
      * destruct (Byte.eqb d b64_pad) eqn:Ed; [|discriminate H].
        injection H as <-. split; [reflexivity|]. intros _.
        apply Byte.byte_dec_bl in Ec, Ed. subst c d.
        exists [], a, b. reflexivity.
      * destruct (b64_index c); [|discriminate H].
        destruct (Byte.eqb d b64_pad).
        -- injection H as <-. split; [reflexivity|]. cbn. discriminate.
        -- destruct (b64_index d); [|discriminate H].
           injection H as <-. split; [reflexivity|]. cbn. discriminate.
    + rewrite b64decode_more in H.
      destruct (b64_index a); [|discriminate H].
      destruct (b64_index b); [|discriminate H].
      destruct (b64_index c); [|discriminate H].
      destruct (b64_index d); [|discriminate H].
      destruct (b64decode (x :: xs)) as [tail|] eqn:Et; [|discriminate H].
      injection H as <-.
      destruct (IH tail eq_refl) as [IHlen IHpad].
      assert (Hdiv : ((List.length tail + 3 + 2) / 3
                      = (List.length tail + 2) / 3 + 1)%nat).
      { replace (List.length tail + 3 + 2)%nat
          with (List.length tail + 2 + 1 * 3)%nat by lia.
        apply Nat.div_add. discriminate. }
      assert (Hmod : ((List.length tail + 3) mod 3
                      = List.length tail mod 3)%nat).
      { replace (List.length tail + 3)%nat
          with (List.length tail + 1 * 3)%nat by lia.
        apply Nat.Div0.mod_add. }
      split.
      * cbn [List.length] in *.
        replace (S (S (S (List.length tail))))
          with (List.length tail + 3)%nat by lia.
        rewrite Hdiv. lia.
      * cbn [List.length].
        replace (S (S (S (List.length tail))))
          with (List.length tail + 3)%nat by lia.
        rewrite Hmod. intros Hone.
        destruct (IHpad Hone) as [front [c1 [c2 E]]].
        exists (a :: b :: c :: d :: front), c1, c2. rewrite E. reflexivity.
Qed.

(** A string whose octets all pass strict validation is ASCII: it has one
    octet for each character, and decoding the octets gives it back. *)
Lemma encode_char_valid (c : ascii) :
  forallb b64_valid (encode_char c) = true ->
  encode_char c = [byte_of_ascii c] /\ ascii_of_byte (byte_of_ascii c) = c.
Proof.
  destruct c as [[] [] [] [] [] [] [] []]; intros H;
    first [ split; reflexivity | discriminate H ].
Qed.

Lemma encode_valid (s : str) :
  forallb b64_valid (encode s) = true ->
  List.length (encode s) = String.length s /\ decode (encode s) = s.
Proof.
  induction s as [|c s IH]; cbn [encode]; intros H.
  - split; reflexivity.
  - rewrite forallb_app in H. apply andb_prop in H. destruct H as [Hc Hs].
    destruct (encode_char_valid c Hc) as [Ec Ea]. destruct (IH Hs) as [Hl Hd].
    rewrite Ec. cbn [app List.length String.length decode].
    rewrite Hl, Hd, Ea. split; reflexivity.
Qed.

Lemma decode_app (s t : bytes) :
  decode (s ++ t) = (decode s ++ decode t)%string.
Proof.
  induction s as [|b s IH]; cbn [app decode String.append];
    [|rewrite IH]; reflexivity.
Qed.

(** X13.  Every key that [check_request] accepts is 24 characters long,
    consists of characters of the base64 alphabet and padding only, and
    ends in "==": nothing else decodes strictly to sixteen octets. *)
Theorem accepted_key_shape :
  forall (w : world) (key : str),
    result check_request w = Returns key ->
    String.length key = 24%nat
    /\ forallb b64_valid (encode key) = true
    /\ exists front, key = (front ++ "==")%string.
Proof.
  intros w key H.
  assert (Hraw : exists raw, b64decode (encode key) = Some raw
                             /\ List.length raw = 16%nat).
  { revert H. rewrite result_check_request, check_request_spec_unfold.
    destruct (has_upgrade _); cbn [negb]; [|discriminate].
    destruct (only_websocket _); cbn [negb]; [|discriminate].
    destruct (Datastructures.get_all (headers w) "Sec-WebSocket-Key")
      as [|k [|k' ks]]; [discriminate| |discriminate].
    destruct (b64decode (encode k)) as [raw|] eqn:Eraw; [|discriminate].
    destruct (Nat.eqb_spec (List.length raw) 16) as [Hlen|_]; cbn [negb];
      [|discriminate].
    by_steps. intros [= <-]. exists raw. split; assumption. }
  destruct Hraw as [raw [Hraw Hlen]].
  destruct (b64decode_valid _ _ Hraw) as [Hvalid _].
  destruct (encode_valid key Hvalid) as [Hchars Hback].
  destruct (b64decode_shape _ _ Hraw) as [Hshape Hpad].
  rewrite Hlen in Hshape, Hpad.
  split; [rewrite <- Hchars, Hshape; reflexivity|].
  split; [exact Hvalid|].
  destruct (Hpad eq_refl) as [front [c1 [c2 E]]].
  exists (decode (front ++ [c1; c2])).
  rewrite <- Hback, E.
  change [c1; c2; b64_pad; b64_pad] with ([c1; c2] ++ [b64_pad; b64_pad]).
  rewrite app_assoc, decode_app. reflexivity.
Qed.

Lemma accepted_key_shape_witness :
  String.length Examples.rfc_key = 24%nat
  /\ forallb b64_valid (encode Examples.rfc_key) = true
  /\ exists front, Examples.rfc_key = (front ++ "==")%string.
Proof.
  exact (accepted_key_shape (Examples.world_of Examples.valid_request)
           Examples.rfc_key eq_refl).
Defined.
